(** * pytrendline: the cursor-delta engine

    A shallow embedding of the two copies of the "previous trend line"
    read-out shipped with the repository:

      - [src/pytrendline/bokeh_cursor_deltas.py]  ([plot_with_prev_deltas],
        with the browser-side functions [prevY], [pct] and the callback),
      - [src/cursor_delta_addon.py]  ([_mk_src], [build_sources], and the
        browser-side functions [yPrevAtDate] and [pctDelta]).

    Numbers.  Python [int]s are unbounded and are modelled by [Z].  Python
    [float]s and JavaScript numbers are IEEE 754 binary64, and the code is
    embedded twice:

      - over exact rationals [Q] (modules [Py], [Js], [BokehCursorDeltas],
        [CursorDeltaAddon], [CursorPanel]), with JavaScript's non-finite
        numbers and [null] kept.  This layer carries what does not depend
        on rounding: which segments are kept, how they are keyed, which one
        is selected, when an error propagates, what the guards do;
      - over binary64 itself (modules [Binary64], [BokehCursorDeltas64],
        [CursorDeltaAddon64]), with every operation rounded to nearest,
        ties to even, as [SpecFloat] of the standard library defines it.
        This layer carries what does depend on rounding: the digits a
        delta shows and the value a projection takes. *)

From Stdlib Require Import ZArith QArith Qabs Qround Qpower Lqa Lia Bool.
From Stdlib Require Import SpecFloat.
From Stdlib Require Import String Ascii List.
From Stdlib Require Import Permutation.
Import ListNotations.

Open Scope Z_scope.

(* ================================================================== *)
(** ** Python side: values, exceptions, conversions                    *)
(* ================================================================== *)

Module Py.

(** The exceptions the conversions can raise ([float(None)] is a
    [TypeError], [float('abc')] a [ValueError], and [pd.to_datetime] raises
    on what it cannot parse).  No handler exists anywhere in the two
    files, so one constructor per origin is enough. *)
Inductive exn : Type :=
| FloatConversionError
| DatetimeConversionError.

Inductive result (A : Type) : Type :=
| Ok (a : A)
| Raise (e : exn).
Arguments Ok {A} a.
Arguments Raise {A} e.

Definition bind {A B : Type} (c : result A) (k : A -> result B) : result B :=
  match c with
  | Ok a => k a
  | Raise e => Raise e
  end.

(** An anchor price as it is handed to [float(...)]: something [float]
    converts, with the number it converts to, or something on which it
    raises. *)
Inductive value : Type :=
| Numeric (q : Q)
| NonNumeric.

(** An anchor timestamp as it is handed to [pd.to_datetime(...)]: something
    it converts, with the [.value] of the result (nanoseconds since the
    epoch), or something on which it raises. *)
Inductive time : Type :=
| Timestamp (ns : Z)
| NotATime.

Definition float (v : value) : result Q :=
  match v with
  | Numeric q => Ok q
  | NonNumeric => Raise FloatConversionError
  end.

(** [pd.to_datetime(ts).value] *)
Definition to_datetime_value (ts : time) : result Z :=
  match ts with
  | Timestamp ns => Ok ns
  | NotATime => Raise DatetimeConversionError
  end.

(** [_to_ms(ts) = int(pd.to_datetime(ts).value // 10**6)]; Python's [//]
    is floor division, which is [Z.div] for a positive divisor. *)
Definition _to_ms (ts : time) : result Z :=
  bind (to_datetime_value ts) (fun ns => Ok (ns / 10 ^ 6)).

End Py.

Notation "x <- c ;; k" := (Py.bind c (fun x => k))
  (at level 61, c at next level, right associativity).

(** bokeh's [ColumnDataSource], with the nine columns both files give it.
    The datetime columns hold the [.value] of the timestamps. *)
Record ColumnDataSource : Type := {
  col_x0 : list Z;
  col_y0 : list Q;
  col_x1 : list Z;
  col_y1 : list Q;
  col_x0ms : list Z;
  col_x1ms : list Z;
  col_m : list Q;
  col_b : list Q;
  col_x_end : list Z
}.

(** One row of such a source: the [rec] dict of [plot_with_prev_deltas], and
    what one turn of the loop of [_mk_src] appends to the columns. *)
Record line : Type := {
  x0 : Z;
  y0 : Q;
  x1 : Z;
  y1 : Q;
  x0ms : Z;
  x1ms : Z;
  m : Q;
  b : Q;
  x_end : Z
}.

(** [{k: [r[k] for r in recs] for k in ...}] *)
Definition columns (recs : list line) : ColumnDataSource :=
  {| col_x0 := map x0 recs; col_y0 := map y0 recs;
     col_x1 := map x1 recs; col_y1 := map y1 recs;
     col_x0ms := map x0ms recs; col_x1ms := map x1ms recs;
     col_m := map m recs; col_b := map b recs;
     col_x_end := map x_end recs |}.

(** [ColumnDataSource(dict(x0=[], y0=[], ..., x_end=[]))] *)
Definition empty_source : ColumnDataSource :=
  {| col_x0 := []; col_y0 := []; col_x1 := []; col_y1 := [];
     col_x0ms := []; col_x1ms := []; col_m := []; col_b := [];
     col_x_end := [] |}.


(* ================================================================== *)
(** ** Browser side: JavaScript numbers and [Number.prototype.toFixed] *)
(* ================================================================== *)

Module Js.

(** A JavaScript number: a finite value, or one of the three non-finite
    ones. *)
Inductive number : Type :=
| Fin (q : Q)
| PosInf
| NegInf
| NaN.

(** The values [prevY]/[yPrevAtDate] can return: [null] or a number. *)
Inductive value : Type :=
| Null
| Num (n : number).

Inductive error : Type :=
| RangeError.

(** Completion of a call: a normal return or a thrown exception. *)
Inductive completion (A : Type) : Type :=
| Return (a : A)
| Throw (e : error).
Arguments Return {A} a.
Arguments Throw {A} e.

Definition bind {A B : Type} (c : completion A) (k : A -> completion B)
  : completion B :=
  match c with
  | Return a => k a
  | Throw e => Throw e
  end.

(** A Python [int] read as a JavaScript number (exact below 2^53 in
    magnitude, which every millisecond timestamp pandas can hold is). *)
Definition of_int (z : Z) : number := Fin (inject_Z z).

(** *** Arithmetic ([+], [-], [*], [/] on numbers) *)

Definition neg (a : number) : number :=
  match a with
  | Fin q => Fin (- q)%Q
  | PosInf => NegInf
  | NegInf => PosInf
  | NaN => NaN
  end.

Definition add (a b : number) : number :=
  match a, b with
  | NaN, _ | _, NaN => NaN
  | Fin p, Fin q => Fin (p + q)%Q
  | PosInf, NegInf | NegInf, PosInf => NaN
  | PosInf, _ | _, PosInf => PosInf
  | NegInf, _ | _, NegInf => NegInf
  end.

Definition sub (a b : number) : number := add a (neg b).

(** An infinity scaled by a finite factor. *)
Definition scale_inf (positive : bool) (q : Q) : number :=
  match (q ?= 0)%Q with
  | Eq => NaN
  | Gt => if positive then PosInf else NegInf
  | Lt => if positive then NegInf else PosInf
  end.

Definition mul (a b : number) : number :=
  match a, b with
  | NaN, _ | _, NaN => NaN
  | Fin p, Fin q => Fin (p * q)%Q
  | PosInf, Fin q | Fin q, PosInf => scale_inf true q
  | NegInf, Fin q | Fin q, NegInf => scale_inf false q
  | PosInf, PosInf | NegInf, NegInf => PosInf
  | PosInf, NegInf | NegInf, PosInf => NegInf
  end.

Definition div (a b : number) : number :=
  match a, b with
  | NaN, _ | _, NaN => NaN
  | Fin p, Fin q =>
      if Qeq_bool q 0 then scale_inf true p else Fin (p / q)%Q
  | Fin _, (PosInf | NegInf) => Fin 0%Q
  | PosInf, Fin q => if Qeq_bool q 0 then PosInf else scale_inf true q
  | NegInf, Fin q => if Qeq_bool q 0 then NegInf else scale_inf false q
  | (PosInf | NegInf), (PosInf | NegInf) => NaN
  end.

(** *** Comparison: [None] when an operand is [NaN] *)

Definition compare (a b : number) : option comparison :=
  match a, b with
  | NaN, _ | _, NaN => None
  | Fin p, Fin q => Some (p ?= q)%Q
  | PosInf, PosInf | NegInf, NegInf => Some Eq
  | PosInf, _ | _, NegInf => Some Gt
  | NegInf, _ | _, PosInf => Some Lt
  end.

(** [a > b] *)
Definition gt (a b : number) : bool :=
  match compare a b with Some Gt => true | _ => false end.

(** [a >= b] *)
Definition ge (a b : number) : bool :=
  match compare a b with Some Gt | Some Eq => true | _ => false end.

(** [a === b] on numbers *)
Definition strict_eq (a b : number) : bool :=
  match compare a b with Some Eq => true | _ => false end.

(** The global [isFinite] on a number. *)
Definition isFinite (a : number) : bool :=
  match a with Fin _ => true | _ => false end.

(** [arr[i]] used as an operand of arithmetic: a missing element is
    [undefined], which arithmetic turns into [NaN]. *)
Definition index (arr : list number) (i : nat) : number := nth i arr NaN.

(** *** Decimal digits *)

Definition digit (d : Z) : ascii := ascii_of_nat (48 + Z.to_nat d).

Fixpoint digits_fuel (fuel : nat) (n : Z) : string :=
  match fuel with
  | O => String (digit (n mod 10)) EmptyString
  | S fuel' =>
      if n <? 10 then String (digit n) EmptyString
      else (digits_fuel fuel' (n / 10) ++ String (digit (n mod 10)) EmptyString)%string
  end.

(** The decimal representation of a non-negative integer, ["0"] for 0. *)
Definition digits (n : Z) : string := digits_fuel (Z.to_nat (Z.log2 n)) n.

Fixpoint zeros (k : nat) : string :=
  match k with
  | O => EmptyString
  | S k' => String "0"%char (zeros k')
  end.

Fixpoint strip_trailing_zeros (s : string) : string :=
  match s with
  | EmptyString => EmptyString
  | String c r =>
      match strip_trailing_zeros r with
      | EmptyString =>
          if Ascii.eqb c "0"%char then EmptyString else String c EmptyString
      | r' => String c r'
      end
  end.

(** *** [Number::toString] at and above 10^21

    From 10^21 on [Number::toString] writes exponent notation,
    [d.ddd...e+N], with the shortest digit string that reads back as the
    same binary64 (ECMA-262, Number::toString, step 5: [k] as small as
    possible; among several digit strings of that length the one closest
    to the value, the even one if two are as close). *)

(** The binary64 nearest to a rational [a >= 2^53], as mantissa and
    exponent: [n * 2^e] with [2^52 <= n < 2^53], ties to the even
    mantissa. *)
Definition nearest_binary64 (a : Q) : Z * Z :=
  let e := Z.log2 (Qfloor a) - 52 in
  let scaled := (a / inject_Z (2 ^ e))%Q in
  let lo := Qfloor scaled in
  let n :=
    match (scaled - inject_Z lo ?= 1 # 2)%Q with
    | Lt => lo
    | Gt => lo + 1
    | Eq => if Z.even lo then lo else lo + 1
    end in
  if n =? 2 ^ 53 then (2 ^ 52, e + 1) else (n, e).

(** The integer [c] reads back as the binary64 [n * 2^e] (with [2 <= e]):
    it lies within half a gap of it, the gap below a power of two being
    half the gap above; the ends of that interval read back as it when its
    mantissa is even. *)
Definition reads_back (n e c : Z) : bool :=
  let v := n * 2 ^ e in
  let hi := v + 2 ^ (e - 1) in
  let lo := v - (if n =? 2 ^ 52 then 2 ^ (e - 2) else 2 ^ (e - 1)) in
  if Z.even n then (lo <=? c) && (c <=? hi) else (lo <? c) && (c <? hi).

(** The search for the shortest digits: with [j] trailing zeros allowed,
    the two multiples of [10^j] around the value are tried; when neither
    reads back, one more digit is allowed. *)
Fixpoint shortest_fuel (fuel : nat) (n e j : Z) : Z :=
  match fuel with
  | O => n * 2 ^ e
  | S fuel' =>
      let v := n * 2 ^ e in
      let below := v / 10 ^ j * 10 ^ j in
      let above := below + 10 ^ j in
      match reads_back n e below, reads_back n e above with
      | true, true =>
          if v - below <? above - v then below
          else if above - v <? v - below then above
          else if Z.even (v / 10 ^ j) then below else above
      | true, false => below
      | false, true => above
      | false, false => shortest_fuel fuel' n e (j - 1)
      end
  end.

(** The integer with the fewest significant digits that reads back as
    [n * 2^e]. *)
Definition shortest (n e : Z) : Z :=
  let k := String.length (digits (n * 2 ^ e)) in
  shortest_fuel k n e (Z.of_nat k - 1).

(** [d.ddd...e+N] for the integer [c], trailing zeros dropped. *)
Definition exponential (c : Z) : string :=
  let ds := digits c in
  let e := digits (Z.of_nat (String.length ds) - 1) in
  match strip_trailing_zeros ds with
  | EmptyString => ("0e+" ++ e)%string
  | String d EmptyString => (String d "e+" ++ e)%string
  | String d r => (String d "." ++ r ++ "e+" ++ e)%string
  end.

(** [Number::toString] on a value of at least 10^21: the value is taken to
    the binary64 nearest to it (itself, when it is one), which is printed
    with its shortest digits; past the largest binary64 it is
    [Infinity]. *)
Definition toString_exponential (a : Q) : string :=
  let (n, e) := nearest_binary64 a in
  if 971 <? e then "Infinity"%string else exponential (shortest n e).

(** The integer [n] for which [n / 10^f - x] is as close to zero as
    possible, the larger one if there are two. *)
Definition nearest_scaled (x : Q) (f : Z) : Z :=
  Qfloor (x * inject_Z (10 ^ f) + (1 # 2))%Q.

(** [x.toFixed(fractionDigits)], following the steps of ECMA-262
    (Number.prototype.toFixed). *)
Definition toFixed (x : number) (fractionDigits : Z) : completion string :=
  if (fractionDigits <? 0) || (100 <? fractionDigits) then Throw RangeError
  else
    match x with
    | NaN => Return "NaN"%string
    | PosInf => Return "Infinity"%string
    | NegInf => Return "-Infinity"%string
    | Fin q =>
        let s := if Qlt_le_dec q 0%Q then "-"%string else ""%string in
        let a := Qabs q in
        if Qle_bool (inject_Z (10 ^ 21)) a
        then Return (s ++ toString_exponential a)%string
        else
          let n := nearest_scaled a fractionDigits in
          let m := digits n in
          let f := Z.to_nat fractionDigits in
          let m :=
            if (f =? 0)%nat then m
            else
              let k := String.length m in
              let m := if (k <=? f)%nat then (zeros (f + 1 - k) ++ m)%string else m in
              let k := String.length m in
              (substring 0 (k - f) m ++ "." ++ substring (k - f) f m)%string
          in
          Return (s ++ m)%string
    end.

End Js.


Notation "'let*' x ':=' c 'in' k" := (Js.bind c (fun x => k))
  (at level 10, x name, c at level 100, k at level 200).

(** [src.data['x_end']], [src.data['m']] and [src.data['b']] as the browser
    sees them. *)
Definition data_x_end (src : ColumnDataSource) : list Js.number :=
  map Js.of_int (col_x_end src).
Definition data_m (src : ColumnDataSource) : list Js.number :=
  map Js.Fin (col_m src).
Definition data_b (src : ColumnDataSource) : list Js.number :=
  map Js.Fin (col_b src).

(** The text both files show when no reference is available. *)
Definition em_dash : string := "—"%string.

(* ================================================================== *)
(** ** src/pytrendline/bokeh_cursor_deltas.py                          *)
(* ================================================================== *)

Module BokehCursorDeltas.

(** An element of [trendlines]:
    [{'kind': 'res'|'sup', 'x0': ..., 'y0': ..., 'x1': ..., 'y1': ...}] *)
Record trendline : Type := {
  tl_kind : string;
  tl_x0 : Py.time;
  tl_y0 : Py.value;
  tl_x1 : Py.time;
  tl_y1 : Py.value
}.

(** The loop [for tl in trendlines: ...], threading [res_lines] and
    [sup_lines]. *)
Fixpoint build_lines (trendlines : list trendline)
    (res_lines sup_lines : list line) : Py.result (list line * list line) :=
  match trendlines with
  | [] => Py.Ok (res_lines, sup_lines)
  | tl :: rest =>
      x0ms <- Py._to_ms (tl_x0 tl) ;;
      x1ms <- Py._to_ms (tl_x1 tl) ;;
      y0 <- Py.float (tl_y0 tl) ;;
      y1 <- Py.float (tl_y1 tl) ;;
      if x1ms =? x0ms then build_lines rest res_lines sup_lines
      else
        let m := ((y1 - y0) / inject_Z (x1ms - x0ms))%Q in
        let b := (y0 - m * inject_Z x0ms)%Q in
        x0 <- Py.to_datetime_value (tl_x0 tl) ;;
        x1 <- Py.to_datetime_value (tl_x1 tl) ;;
        let rec :=
          {| x0 := x0; y0 := y0; x1 := x1; y1 := y1;
             x0ms := x0ms; x1ms := x1ms; m := m; b := b;
             x_end := Z.max x0ms x1ms |} in
        if String.eqb (tl_kind tl) "res"
        then build_lines rest (res_lines ++ [rec]) sup_lines
        else build_lines rest res_lines (sup_lines ++ [rec])
  end.

Definition _mk_source (recs : list line) : ColumnDataSource :=
  match recs with
  | [] => empty_source
  | _ :: _ => columns recs
  end.

(** The part of [plot_with_prev_deltas] that computes: the two sources the
    callback is given. *)
Definition plot_with_prev_deltas (trendlines : list trendline)
    : Py.result (ColumnDataSource * ColumnDataSource) :=
  lines <- build_lines trendlines [] [] ;;
  Py.Ok (_mk_source (fst lines), _mk_source (snd lines)).

(** One turn of the [for] loop of [prevY], on the pair [(best, yAt)]. *)
Definition prevY_step (src : ColumnDataSource) (x : Js.number)
    (st : Js.number * Js.value) (i : nat) : Js.number * Js.value :=
  let x_end := Js.index (data_x_end src) i in
  if Js.ge x x_end && Js.gt x_end (fst st)
  then (x_end,
        Js.Num (Js.add (Js.mul (Js.index (data_m src) i) x)
                       (Js.index (data_b src) i)))
  else st.

Definition prevY (src : ColumnDataSource) (x : Js.number) : Js.value :=
  let n := length (data_x_end src) in
  snd (fold_left (prevY_step src x) (seq 0 n) (Js.NegInf, Js.Null)).

Definition pct (y : Js.number) (yref : Js.value) : Js.completion string :=
  match yref with
  | Js.Null => Js.Return em_dash
  | Js.Num yref =>
      if negb (Js.isFinite yref) || Js.strict_eq yref (Js.Fin 0)
      then Js.Return em_dash
      else
        let p := Js.mul (Js.div (Js.sub y yref) yref) (Js.Fin 100) in
        let sign := if Js.gt p (Js.Fin 0) then "+"%string else ""%string in
        let* fixed := Js.toFixed p 2 in
        Js.Return (sign ++ fixed ++ "%")%string
  end.

(** The [mousemove] callback: the text it stores in [div.text]. *)
Definition callback (res sup : ColumnDataSource) (x y : Js.number)
    : Js.completion string :=
  let yRes := prevY res x in
  let ySup := prevY sup x in
  let* pRes := pct y yRes in
  let* pSup := pct y ySup in
  Js.Return ("<b>Δ vs prev RES:</b> " ++ pRes
             ++ " &nbsp; | &nbsp; <b>Δ vs prev SUP:</b> " ++ pSup)%string.

End BokehCursorDeltas.

(* ================================================================== *)
(** ** src/cursor_delta_addon.py                                       *)
(* ================================================================== *)

Module CursorDeltaAddon.

(** An element of [records]: the tuple [(x0, y0, x1, y1)]. *)
Definition record : Type := (Py.time * Py.value * Py.time * Py.value)%type.

(** The loop [for x0, y0, x1, y1 in records: ...], threading [out]. *)
Fixpoint fill (records : list record) (out : ColumnDataSource)
    : Py.result ColumnDataSource :=
  match records with
  | [] => Py.Ok out
  | (x0, y0, x1, y1) :: rest =>
      x0ms <- Py._to_ms x0 ;;
      x1ms <- Py._to_ms x1 ;;
      if x1ms =? x0ms then fill rest out
      else
        fy1 <- Py.float y1 ;;
        fy0 <- Py.float y0 ;;
        let m := ((fy1 - fy0) / inject_Z (x1ms - x0ms))%Q in
        fy0' <- Py.float y0 ;;
        let b := (fy0' - m * inject_Z x0ms)%Q in
        dx0 <- Py.to_datetime_value x0 ;;
        ay0 <- Py.float y0 ;;
        dx1 <- Py.to_datetime_value x1 ;;
        ay1 <- Py.float y1 ;;
        fill rest
          {| col_x0 := col_x0 out ++ [dx0]; col_y0 := col_y0 out ++ [ay0];
             col_x1 := col_x1 out ++ [dx1]; col_y1 := col_y1 out ++ [ay1];
             col_x0ms := col_x0ms out ++ [x0ms];
             col_x1ms := col_x1ms out ++ [x1ms];
             col_m := col_m out ++ [m]; col_b := col_b out ++ [b];
             col_x_end := col_x_end out ++ [Z.max x0ms x1ms] |}
  end.

Definition _mk_src (records : list record) : Py.result ColumnDataSource :=
  match records with
  | [] => Py.Ok empty_source
  | _ :: _ => fill records empty_source
  end.

Definition build_sources (res_segments sup_segments : list record)
    : Py.result (ColumnDataSource * ColumnDataSource) :=
  res_src <- _mk_src res_segments ;;
  sup_src <- _mk_src sup_segments ;;
  Py.Ok (res_src, sup_src).

(** One turn of the [for] loop of [yPrevAtDate], on [(best, yAt)]. *)
Definition yPrevAtDate_step (src : ColumnDataSource) (dateMs : Js.number)
    (st : Js.number * Js.value) (i : nat) : Js.number * Js.value :=
  let xe := Js.index (data_x_end src) i in
  if Js.ge dateMs xe && Js.gt xe (fst st)
  then (xe,
        Js.Num (Js.add (Js.mul (Js.index (data_m src) i) dateMs)
                       (Js.index (data_b src) i)))
  else st.

Definition yPrevAtDate (src : ColumnDataSource) (dateMs : Js.number)
    : Js.value :=
  let n := length (data_x_end src) in
  snd (fold_left (yPrevAtDate_step src dateMs) (seq 0 n) (Js.NegInf, Js.Null)).

Definition pctDelta (y : Js.number) (yref : Js.value) : Js.completion string :=
  match yref with
  | Js.Null => Js.Return em_dash
  | Js.Num yref =>
      if negb (Js.isFinite yref) || Js.strict_eq yref (Js.Fin 0)
      then Js.Return em_dash
      else
        let p := Js.mul (Js.div (Js.sub y yref) yref) (Js.Fin 100) in
        let sign := if Js.ge p (Js.Fin 0) then "+"%string else ""%string in
        let* fixed := Js.toFixed p 2 in
        Js.Return (sign ++ fixed ++ "%")%string
  end.

End CursorDeltaAddon.

(* ================================================================== *)
(** ** src/cursor_delta_addon.py, the callback of [attach_cursor_panel] *)
(* ================================================================== *)

Module CursorPanel.

(** [candles.data]: the four columns the callback reads. *)
Record CandleSource : Type := {
  Date : list Js.number;
  High : list Js.number;
  Low : list Js.number;
  Close : list Js.number
}.

(** What the callback can throw: what [toFixed] throws, or the [TypeError]
    of calling a method on [undefined]. *)
Inductive thrown : Type :=
| Builtin (e : Js.error)
| TypeError.

(** The effect of one call: the text stored in [div.text], or an exception
    (and [div.text] left as it was). *)
Inductive outcome : Type :=
| Shown (text : string)
| Threw (e : thrown).

(** [Math.round]: the nearest integer, a half going up. *)
Definition Math_round (x : Js.number) : Js.number :=
  match x with
  | Js.Fin q => Js.of_int (Qfloor (q + (1 # 2))%Q)
  | _ => x
  end.

(** [arr[k]] for a number [k]: the element when [k] is an integer index in
    range, [undefined] ([None]) otherwise. *)
Definition element (arr : list Js.number) (k : Js.number) : option Js.number :=
  match k with
  | Js.Fin q =>
      if Qeq_bool (inject_Z (Qfloor q)) q && (0 <=? Qfloor q)
      then nth_error arr (Z.to_nat (Qfloor q))
      else None
  | _ => None
  end.

(** A possibly [undefined] value used as a number. *)
Definition to_number (v : option Js.number) : Js.number :=
  match v with
  | Some n => n
  | None => Js.NaN
  end.

Definition placeholder : string := "<b>Hover over candlesticks…</b>"%string.

(** The [mousemove] callback ([candleHigh] and [candleLow] are read and not
    used). *)
Definition callback (res sup : ColumnDataSource) (candles : CandleSource)
    (x : Js.number) : outcome :=
  let candleIdx := Math_round x in
  if Js.gt (Js.Fin 0) candleIdx
     || Js.ge candleIdx (Js.of_int (Z.of_nat (length (Date candles))))
  then Shown placeholder
  else
    let candleDate := element (Date candles) candleIdx in
    let candleClose := element (Close candles) candleIdx in
    let yRes := CursorDeltaAddon.yPrevAtDate res (to_number candleDate) in
    let ySup := CursorDeltaAddon.yPrevAtDate sup (to_number candleDate) in
    match CursorDeltaAddon.pctDelta (to_number candleClose) yRes with
    | Js.Throw e => Threw (Builtin e)
    | Js.Return pctToRes =>
        match CursorDeltaAddon.pctDelta (to_number candleClose) ySup with
        | Js.Throw e => Threw (Builtin e)
        | Js.Return pctToSup =>
            match candleClose with
            | None => Threw TypeError
            | Some close =>
                match Js.toFixed close 2 with
                | Js.Throw e => Threw (Builtin e)
                | Js.Return fixed =>
                    Shown ("<b>Close: " ++ fixed
                           ++ "</b> &nbsp; | &nbsp; <b>Δ vs prev RES:</b> "
                           ++ pctToRes
                           ++ " &nbsp; | &nbsp; <b>Δ vs prev SUP:</b> "
                           ++ pctToSup)%string
                end
            end
        end
    end.

End CursorPanel.

(* ================================================================== *)
(** ** Well-typed input: segments with numeric anchors                 *)
(* ================================================================== *)

(** An anchor point: a timestamp (nanoseconds since the epoch, what
    [pd.to_datetime(...).value] holds) and a price. *)
Record AnchorPoint : Type := {
  timestamp : Z;
  price : Q
}.

Record Segment : Type := {
  anchor_start : AnchorPoint;
  anchor_end : AnchorPoint
}.

Definition time_ms (a : AnchorPoint) : Z := timestamp a / 10 ^ 6.

(** The two anchors map to the same millisecond. *)
Definition degenerate (s : Segment) : bool :=
  time_ms (anchor_end s) =? time_ms (anchor_start s).

(** The compiled segment as the specification words it:
    slope = (endPrice - startPrice) / (endTimeMs - startTimeMs),
    intercept = startPrice - slope * startTimeMs, keyed by the later of the
    two millisecond times. *)
Definition compiled (s : Segment) : line :=
  let t0 := time_ms (anchor_start s) in
  let t1 := time_ms (anchor_end s) in
  let slope := ((price (anchor_end s) - price (anchor_start s))
                / inject_Z (t1 - t0))%Q in
  {| x0 := timestamp (anchor_start s); y0 := price (anchor_start s);
     x1 := timestamp (anchor_end s); y1 := price (anchor_end s);
     x0ms := t0; x1ms := t1;
     m := slope;
     b := (price (anchor_start s) - slope * inject_Z t0)%Q;
     x_end := Z.max t0 t1 |}.

(** A segment as an element of [trendlines] of [plot_with_prev_deltas]. *)
Definition trendline_of (ks : string * Segment) : BokehCursorDeltas.trendline :=
  {| BokehCursorDeltas.tl_kind := fst ks;
     BokehCursorDeltas.tl_x0 := Py.Timestamp (timestamp (anchor_start (snd ks)));
     BokehCursorDeltas.tl_y0 := Py.Numeric (price (anchor_start (snd ks)));
     BokehCursorDeltas.tl_x1 := Py.Timestamp (timestamp (anchor_end (snd ks)));
     BokehCursorDeltas.tl_y1 := Py.Numeric (price (anchor_end (snd ks))) |}.

(** A segment as an element of [records] of [_mk_src]. *)
Definition record_of (s : Segment) : CursorDeltaAddon.record :=
  (Py.Timestamp (timestamp (anchor_start s)), Py.Numeric (price (anchor_start s)),
   Py.Timestamp (timestamp (anchor_end s)), Py.Numeric (price (anchor_end s))).

Definition is_res (ks : string * Segment) : bool := String.eqb (fst ks) "res".

Definition kept (s : Segment) : bool := negb (degenerate s).

(** What holds of every row the two compilers produce. *)
Definition line_ok (r : line) : Prop :=
  x0ms r = x0 r / 10 ^ 6 /\
  x1ms r = x1 r / 10 ^ 6 /\
  x1ms r <> x0ms r /\
  m r = ((y1 r - y0 r) / inject_Z (x1ms r - x0ms r))%Q /\
  b r = (y0 r - m r * inject_Z (x0ms r))%Q /\
  x_end r = Z.max (x0ms r) (x1ms r).

(** A trend line with an anchor that [pd.to_datetime] or [float] rejects. *)
Definition bad_time (t : Py.time) : bool :=
  match t with Py.NotATime => true | Py.Timestamp _ => false end.

Definition bad_value (v : Py.value) : bool :=
  match v with Py.NonNumeric => true | Py.Numeric _ => false end.

Definition malformed (tl : BokehCursorDeltas.trendline) : bool :=
  bad_time (BokehCursorDeltas.tl_x0 tl) || bad_time (BokehCursorDeltas.tl_x1 tl)
  || bad_value (BokehCursorDeltas.tl_y0 tl) || bad_value (BokehCursorDeltas.tl_y1 tl).

(** A record of [_mk_src] on which a conversion that the loop reaches
    raises: a timestamp always is converted, a price only when the two
    timestamps fall in different milliseconds. *)
Definition aborting (r : CursorDeltaAddon.record) : bool :=
  match r with
  | (Py.Timestamp n0, y0, Py.Timestamp n1, y1) =>
      negb (n1 / 10 ^ 6 =? n0 / 10 ^ 6) && (bad_value y0 || bad_value y1)
  | _ => true
  end.

(** Row [i] of [ls] is the "most recent at [t]": it ended by [t], no row
    that ended by [t] ended later, and no earlier row has the same end. *)
Definition most_recent_at (ls : list line) (t : Q) (i : nat) (r : line) : Prop :=
  nth_error ls i = Some r /\
  (inject_Z (x_end r) <= t)%Q /\
  (forall j r', nth_error ls j = Some r' ->
                (inject_Z (x_end r') <= t)%Q -> x_end r' <= x_end r) /\
  (forall j r', (j < i)%nat -> nth_error ls j = Some r' -> x_end r' <> x_end r).

(** The state [(best, yAt)] of [prevY] after the first [k] turns of its
    loop over the source [columns ls], at the finite query time [t]. *)
Definition scan (ls : list line) (t : Q) (k : nat) : Js.number * Js.value :=
  fold_left (BokehCursorDeltas.prevY_step (columns ls) (Js.Fin t)) (seq 0 k)
            (Js.NegInf, Js.Null).

(** The loop invariant of that scan. *)
Definition scanned (ls : list line) (t : Q) (k : nat)
    (st : Js.number * Js.value) : Prop :=
  (st = (Js.NegInf, Js.Null) /\
   forall j r', (j < k)%nat -> nth_error ls j = Some r' ->
                (t < inject_Z (x_end r'))%Q)
  \/
  (exists i r,
      (i < k)%nat /\ nth_error ls i = Some r /\
      (inject_Z (x_end r) <= t)%Q /\
      (forall j r', (j < k)%nat -> nth_error ls j = Some r' ->
                    (inject_Z (x_end r') <= t)%Q -> x_end r' <= x_end r) /\
      (forall j r', (j < i)%nat -> nth_error ls j = Some r' ->
                    x_end r' <> x_end r) /\
      st = (Js.of_int (x_end r), Js.Num (Js.Fin (m r * t + b r)%Q))).

(** The projection of a row evaluated at a time, and what it means for it to
    pass through the row's two anchors. *)
Definition project (r : line) (t : Q) : Q := (m r * t + b r)%Q.


(** *** The delta of the specification *)

(** percent = (observed - reference) / reference * 100 *)
Definition percent (observed reference : Q) : Q :=
  ((observed - reference) / reference * 100)%Q.

(** The number of hundredths nearest to the magnitude of [p] (the larger
    one when two are as near). *)
Definition hundredths (p : Q) : Z := Qfloor (Qabs p * 100 + (1 # 2))%Q.

(** The magnitude of [p] written with two decimal places: the integer part
    of its hundredths, a point, the tenths digit and the hundredths digit. *)
Definition two_decimals (p : Q) : string :=
  let n := hundredths p in
  (Js.digits (n / 100) ++ "."
   ++ String (Js.digit (n / 10 mod 10)) (String (Js.digit (n mod 10)) ""))%string.






(** The reference is "no match", non-finite, or exactly zero. *)
Definition degenerate_reference (yref : Js.value) : bool :=
  match yref with
  | Js.Null => true
  | Js.Num (Js.Fin q) => Qeq_bool q 0
  | Js.Num _ => true
  end.

(** *** Sample data *)

Definition ms_ns (ms : Z) : Z := ms * 10 ^ 6.

Definition segment (t0 : Z) (p0 : Q) (t1 : Z) (p1 : Q) : Segment :=
  {| anchor_start := {| timestamp := t0; price := p0 |};
     anchor_end := {| timestamp := t1; price := p1 |} |}.

(** Resistance: from 29 at 0 ms to 49 at 100 ms, so 50 at 105 ms. *)
Definition sample_res : Segment := segment 0 29 (ms_ns 100) 49.
(** Support: from 19 at 0 ms to 37 at 90 ms, so 40 at 105 ms. *)
Definition sample_sup : Segment := segment 0 19 (ms_ns 90) 37.
(** Two segments ending in the same millisecond, on different lines. *)
Definition sample_tie_a : Segment := segment 0 10 (ms_ns 100) 20.
Definition sample_tie_b : Segment := segment (ms_ns 50) 40 (ms_ns 100) 30.
(** Anchors in reverse temporal order. *)
Definition sample_reversed : Segment := segment (ms_ns 200) 5 (ms_ns 100) 7.
(** Anchors 2 ns apart, in the same millisecond. *)
Definition sample_degenerate : Segment := segment 5 1 7 2.

(** A trend line whose first price is not a number. *)
Definition sample_bad : BokehCursorDeltas.trendline :=
  {| BokehCursorDeltas.tl_kind := "res";
     BokehCursorDeltas.tl_x0 := Py.Timestamp 0;
     BokehCursorDeltas.tl_y0 := Py.NonNumeric;
     BokehCursorDeltas.tl_x1 := Py.Timestamp (ms_ns 10);
     BokehCursorDeltas.tl_y1 := Py.Numeric 3 |}.

Definition sample_bad_record : CursorDeltaAddon.record :=
  (Py.Timestamp 0, Py.NonNumeric, Py.Timestamp (ms_ns 10), Py.Numeric 3).

(* ================================================================== *)
(** ** The compilers                                                   *)
(* ================================================================== *)

(* ================================================================== *)
(** ** src/pytrendline/bokeh_cursor_deltas.py, the up and down bars    *)
(* ================================================================== *)

Module Candles.

(** A row of [df]: the date and the four prices, which are binary64 values
    like the browser's numbers and may be [NaN]. *)
Record row : Type := {
  Date : Z;
  Open : Js.number;
  High : Js.number;
  Low : Js.number;
  Close : Js.number
}.

(** [inc = df["Close"] >= df["Open"]] *)
Definition inc (df : list row) : list bool :=
  map (fun r => Js.ge (Close r) (Open r)) df.

(** [dec = ~inc] *)
Definition dec (df : list row) : list bool := map negb (inc df).

(** [df.loc[mask, ["Date","Open","Close"]]] *)
Fixpoint loc (mask : list bool) (df : list row)
    : list (Z * Js.number * Js.number) :=
  match mask, df with
  | keep :: mask', r :: df' =>
      if keep then (Date r, Open r, Close r) :: loc mask' df' else loc mask' df'
  | _, _ => []
  end.

Definition inc_src (df : list row) : list (Z * Js.number * Js.number) :=
  loc (inc df) df.

Definition dec_src (df : list row) : list (Z * Js.number * Js.number) :=
  loc (dec df) df.

End Candles.

(* ================================================================== *)
(** ** src/data/fetcher.py, [_maybe_strip]                             *)
(* ================================================================== *)

Section Fetcher.

(** Python's [str.upper], which the function uses only to compare. *)
Variable upper : string -> string.

(** [c.split(" ")]: cut at every space; never an empty list. *)
Fixpoint split_space (c : string) : list string :=
  match c with
  | EmptyString => [EmptyString]
  | String ch rest =>
      if Ascii.eqb ch " " then EmptyString :: split_space rest
      else
        match split_space rest with
        | word :: words => String ch word :: words
        | [] => [String ch EmptyString]
        end
  end.

(** [" ".join(parts)] *)
Fixpoint join_space (parts : list string) : string :=
  match parts with
  | [] => EmptyString
  | [word] => word
  | word :: words => (word ++ " " ++ join_space words)%string
  end.

Definition _maybe_strip (ticker c : string) : string :=
  let parts := split_space c in
  if (2 <=? length parts)%nat
     && String.eqb (upper (nth 0 parts EmptyString)) (upper ticker)
  then join_space (tl parts)
  else c.

End Fetcher.

(** No space in a string. *)
Fixpoint spaceless (c : string) : bool :=
  match c with
  | EmptyString => true
  | String ch rest => negb (Ascii.eqb ch " ") && spaceless rest
  end.

(** [str.upper] on the letters a-z, for the examples. *)
Definition ascii_upper (c : string) : string :=
  string_of_list_ascii
    (map (fun ch =>
            let n := nat_of_ascii ch in
            if ((97 <=? n) && (n <=? 122))%nat then ascii_of_nat (n - 32) else ch)
         (list_ascii_of_string c)).

(** *** Vocabulary of the further properties *)

(** The millisecond a segment is keyed by: the later of its two anchors. *)
Definition end_ms (s : Segment) : Z :=
  Z.max (time_ms (anchor_start s)) (time_ms (anchor_end s)).

(** The nine columns of a source have one length. *)
Definition aligned (src : ColumnDataSource) : Prop :=
  let n := length (col_x_end src) in
  length (col_x0 src) = n /\ length (col_y0 src) = n /\
  length (col_x1 src) = n /\ length (col_y1 src) = n /\
  length (col_x0ms src) = n /\ length (col_x1ms src) = n /\
  length (col_m src) = n /\ length (col_b src) = n.

(** The text of the callback of [plot_with_prev_deltas] when neither
    category has a reference. *)
Definition both_unavailable : string :=
  ("<b>Δ vs prev RES:</b> " ++ em_dash
   ++ " &nbsp; | &nbsp; <b>Δ vs prev SUP:</b> " ++ em_dash)%string.

(* ================================================================== *)
(** ** Binary64: the arithmetic as the two files run it                *)
(* ================================================================== *)

Module Binary64.

(** IEEE 754 binary64: 53 bits of precision, exponents below 1024. *)
Definition prec : Z := 53.
Definition emax : Z := 1024.

(** A Python [float] or a JavaScript number: a signed zero, a signed
    infinity, NaN, or a finite [(-1)^s * m * 2^e], kept in the canonical
    form in which the operations below return it. *)
Definition number : Type := spec_float.

Definition NaN : number := S754_nan.
Definition NegInf : number := S754_infinity true.
Definition zero : number := S754_zero false.

(** An [int] as a [float] or a JavaScript number: the nearest binary64,
    ties to even.  The integers the two files convert are millisecond
    values of pandas timestamps (an int64 of nanoseconds, divided by
    10^6) and their differences: all below 2^53 in magnitude, where the
    conversion is exact.  Past the largest binary64, where Python would
    raise [OverflowError], this is an infinity. *)
Definition of_int (z : Z) : number := binary_normalize prec emax z 0 false.

(** [+], [-], [*], [/], each rounded to nearest, ties to even. *)
Definition add : number -> number -> number := SFadd prec emax.
Definition sub : number -> number -> number := SFsub prec emax.
Definition mul : number -> number -> number := SFmul prec emax.
Definition div : number -> number -> number := SFdiv prec emax.

(** The decimal literal [n/d], such as [17262/100] for [172.62]: the
    binary64 nearest to it (for [n] and [d] below 2^53, which convert
    exactly, so that the quotient is rounded once). *)
Definition decimal (n d : Z) : number := div (of_int n) (of_int d).

(** [a > b], [a >= b], [a === b]: false when an operand is NaN; the two
    zeros are equal. *)
Definition gt (a b : number) : bool :=
  match SFcompare a b with Some Gt => true | _ => false end.

Definition ge (a b : number) : bool :=
  match SFcompare a b with Some Gt | Some Eq => true | _ => false end.

Definition strict_eq (a b : number) : bool :=
  match SFcompare a b with Some Eq => true | _ => false end.

(** The global [isFinite] on a number. *)
Definition isFinite (a : number) : bool :=
  match a with
  | S754_zero _ | S754_finite _ _ _ => true
  | S754_infinity _ | S754_nan => false
  end.

(** Finite and not a zero. *)
Definition is_nonzero (a : number) : bool :=
  match a with
  | S754_finite _ _ _ => true
  | _ => false
  end.

(** One of the two zeros. *)
Definition is_zero (a : number) : bool :=
  match a with
  | S754_zero _ => true
  | _ => false
  end.

(** [arr[i]] used as an operand: a missing element is [undefined], which
    arithmetic and comparison turn into NaN. *)
Definition index (arr : list number) (i : nat) : number := nth i arr NaN.

(** The real number a finite binary64 stands for (0 for the others). *)
Definition value (a : number) : Q :=
  match a with
  | S754_finite s m e =>
      let magnitude := (inject_Z (Z.pos m) * 2 ^ e)%Q in
      if s then (- magnitude)%Q else magnitude
  | _ => 0%Q
  end.

(** A binary64 as a number of the exact layer. *)
Definition to_number (a : number) : Js.number :=
  match a with
  | S754_nan => Js.NaN
  | S754_infinity false => Js.PosInf
  | S754_infinity true => Js.NegInf
  | S754_zero _ | S754_finite _ _ _ => Js.Fin (value a)
  end.

(** [x.toFixed(fractionDigits)]: the standard defines it on the real
    number the binary64 stands for, so it is [Js.toFixed] at that value. *)
Definition toFixed (x : number) (fractionDigits : Z) : Js.completion string :=
  Js.toFixed (to_number x) fractionDigits.

(** An anchor price as it is handed to [float(...)]: something [float]
    converts, with the binary64 it converts to (which may be NaN or an
    infinity, as for [float('nan')]), or something on which it raises. *)
Inductive value_in : Type :=
| Float (x : number)
| NonNumeric.

Definition float (v : value_in) : Py.result number :=
  match v with
  | Float x => Py.Ok x
  | NonNumeric => Py.Raise Py.FloatConversionError
  end.

(** The [rec] dict of [plot_with_prev_deltas], and what one turn of the
    loop of [_mk_src] appends to the columns. *)
Record line : Type := {
  x0 : Z;
  y0 : number;
  x1 : Z;
  y1 : number;
  x0ms : Z;
  x1ms : Z;
  m : number;
  b : number;
  x_end : Z
}.

(** bokeh's [ColumnDataSource] with its nine columns. *)
Record ColumnDataSource : Type := {
  col_x0 : list Z;
  col_y0 : list number;
  col_x1 : list Z;
  col_y1 : list number;
  col_x0ms : list Z;
  col_x1ms : list Z;
  col_m : list number;
  col_b : list number;
  col_x_end : list Z
}.

(** [{k: [r[k] for r in recs] for k in ...}] *)
Definition columns (recs : list line) : ColumnDataSource :=
  {| col_x0 := map x0 recs; col_y0 := map y0 recs;
     col_x1 := map x1 recs; col_y1 := map y1 recs;
     col_x0ms := map x0ms recs; col_x1ms := map x1ms recs;
     col_m := map m recs; col_b := map b recs;
     col_x_end := map x_end recs |}.

Definition empty_source : ColumnDataSource :=
  {| col_x0 := []; col_y0 := []; col_x1 := []; col_y1 := [];
     col_x0ms := []; col_x1ms := []; col_m := []; col_b := [];
     col_x_end := [] |}.

(** [src.data['x_end']] as the browser sees it. *)
Definition data_x_end (src : ColumnDataSource) : list number :=
  map of_int (col_x_end src).

End Binary64.

(* ================================================================== *)
(** ** src/pytrendline/bokeh_cursor_deltas.py, in binary64             *)
(* ================================================================== *)

Module BokehCursorDeltas64.

Record trendline : Type := {
  tl_kind : string;
  tl_x0 : Py.time;
  tl_y0 : Binary64.value_in;
  tl_x1 : Py.time;
  tl_y1 : Binary64.value_in
}.

(** The loop [for tl in trendlines: ...]: [(y1 - y0)] is rounded, the
    [int] span is converted, the quotient is rounded; then [m * x0ms] is
    rounded and the difference is rounded. *)
Fixpoint build_lines (trendlines : list trendline)
    (res_lines sup_lines : list Binary64.line)
    : Py.result (list Binary64.line * list Binary64.line) :=
  match trendlines with
  | [] => Py.Ok (res_lines, sup_lines)
  | tl :: rest =>
      x0ms <- Py._to_ms (tl_x0 tl) ;;
      x1ms <- Py._to_ms (tl_x1 tl) ;;
      y0 <- Binary64.float (tl_y0 tl) ;;
      y1 <- Binary64.float (tl_y1 tl) ;;
      if x1ms =? x0ms then build_lines rest res_lines sup_lines
      else
        let m := Binary64.div (Binary64.sub y1 y0)
                              (Binary64.of_int (x1ms - x0ms)) in
        let b := Binary64.sub y0 (Binary64.mul m (Binary64.of_int x0ms)) in
        x0 <- Py.to_datetime_value (tl_x0 tl) ;;
        x1 <- Py.to_datetime_value (tl_x1 tl) ;;
        let rec :=
          {| Binary64.x0 := x0; Binary64.y0 := y0;
             Binary64.x1 := x1; Binary64.y1 := y1;
             Binary64.x0ms := x0ms; Binary64.x1ms := x1ms;
             Binary64.m := m; Binary64.b := b;
             Binary64.x_end := Z.max x0ms x1ms |} in
        if String.eqb (tl_kind tl) "res"
        then build_lines rest (res_lines ++ [rec]) sup_lines
        else build_lines rest res_lines (sup_lines ++ [rec])
  end.

Definition _mk_source (recs : list Binary64.line) : Binary64.ColumnDataSource :=
  match recs with
  | [] => Binary64.empty_source
  | _ :: _ => Binary64.columns recs
  end.

Definition plot_with_prev_deltas (trendlines : list trendline)
    : Py.result (Binary64.ColumnDataSource * Binary64.ColumnDataSource) :=
  lines <- build_lines trendlines [] [] ;;
  Py.Ok (_mk_source (fst lines), _mk_source (snd lines)).

(** One turn of the [for] loop of [prevY], on the pair [(best, yAt)];
    [m[i]*x + b[i]] is a rounded product and a rounded sum. *)
Definition prevY_step (src : Binary64.ColumnDataSource) (x : Binary64.number)
    (st : Binary64.number * option Binary64.number) (i : nat)
    : Binary64.number * option Binary64.number :=
  let x_end := Binary64.index (Binary64.data_x_end src) i in
  if Binary64.ge x x_end && Binary64.gt x_end (fst st)
  then (x_end,
        Some (Binary64.add
                (Binary64.mul (Binary64.index (Binary64.col_m src) i) x)
                (Binary64.index (Binary64.col_b src) i)))
  else st.

(** [prevY(src, x)]; [None] is [null]. *)
Definition prevY (src : Binary64.ColumnDataSource) (x : Binary64.number)
    : option Binary64.number :=
  let n := length (Binary64.data_x_end src) in
  snd (fold_left (prevY_step src x) (seq 0 n) (Binary64.NegInf, None)).

Definition pct (y : Binary64.number) (yref : option Binary64.number)
    : Js.completion string :=
  match yref with
  | None => Js.Return em_dash
  | Some yref =>
      if negb (Binary64.isFinite yref) || Binary64.strict_eq yref Binary64.zero
      then Js.Return em_dash
      else
        let p := Binary64.mul (Binary64.div (Binary64.sub y yref) yref)
                              (Binary64.of_int 100) in
        let sign := if Binary64.gt p Binary64.zero then "+"%string else ""%string in
        let* fixed := Binary64.toFixed p 2 in
        Js.Return (sign ++ fixed ++ "%")%string
  end.

End BokehCursorDeltas64.

(* ================================================================== *)
(** ** src/cursor_delta_addon.py, in binary64                          *)
(* ================================================================== *)

Module CursorDeltaAddon64.

Definition record : Type :=
  (Py.time * Binary64.value_in * Py.time * Binary64.value_in)%type.

Fixpoint fill (records : list record) (out : Binary64.ColumnDataSource)
    : Py.result Binary64.ColumnDataSource :=
  match records with
  | [] => Py.Ok out
  | (x0, y0, x1, y1) :: rest =>
      x0ms <- Py._to_ms x0 ;;
      x1ms <- Py._to_ms x1 ;;
      if x1ms =? x0ms then fill rest out
      else
        fy1 <- Binary64.float y1 ;;
        fy0 <- Binary64.float y0 ;;
        let m := Binary64.div (Binary64.sub fy1 fy0)
                              (Binary64.of_int (x1ms - x0ms)) in
        fy0' <- Binary64.float y0 ;;
        let b := Binary64.sub fy0' (Binary64.mul m (Binary64.of_int x0ms)) in
        dx0 <- Py.to_datetime_value x0 ;;
        ay0 <- Binary64.float y0 ;;
        dx1 <- Py.to_datetime_value x1 ;;
        ay1 <- Binary64.float y1 ;;
        fill rest
          {| Binary64.col_x0 := Binary64.col_x0 out ++ [dx0];
             Binary64.col_y0 := Binary64.col_y0 out ++ [ay0];
             Binary64.col_x1 := Binary64.col_x1 out ++ [dx1];
             Binary64.col_y1 := Binary64.col_y1 out ++ [ay1];
             Binary64.col_x0ms := Binary64.col_x0ms out ++ [x0ms];
             Binary64.col_x1ms := Binary64.col_x1ms out ++ [x1ms];
             Binary64.col_m := Binary64.col_m out ++ [m];
             Binary64.col_b := Binary64.col_b out ++ [b];
             Binary64.col_x_end := Binary64.col_x_end out ++ [Z.max x0ms x1ms] |}
  end.

Definition _mk_src (records : list record) : Py.result Binary64.ColumnDataSource :=
  match records with
  | [] => Py.Ok Binary64.empty_source
  | _ :: _ => fill records Binary64.empty_source
  end.

(** One turn of the [for] loop of [yPrevAtDate], on [(best, yAt)]. *)
Definition yPrevAtDate_step (src : Binary64.ColumnDataSource)
    (dateMs : Binary64.number)
    (st : Binary64.number * option Binary64.number) (i : nat)
    : Binary64.number * option Binary64.number :=
  let xe := Binary64.index (Binary64.data_x_end src) i in
  if Binary64.ge dateMs xe && Binary64.gt xe (fst st)
  then (xe,
        Some (Binary64.add
                (Binary64.mul (Binary64.index (Binary64.col_m src) i) dateMs)
                (Binary64.index (Binary64.col_b src) i)))
  else st.

Definition yPrevAtDate (src : Binary64.ColumnDataSource)
    (dateMs : Binary64.number) : option Binary64.number :=
  let n := length (Binary64.data_x_end src) in
  snd (fold_left (yPrevAtDate_step src dateMs) (seq 0 n) (Binary64.NegInf, None)).

Definition pctDelta (y : Binary64.number) (yref : option Binary64.number)
    : Js.completion string :=
  match yref with
  | None => Js.Return em_dash
  | Some yref =>
      if negb (Binary64.isFinite yref) || Binary64.strict_eq yref Binary64.zero
      then Js.Return em_dash
      else
        let p := Binary64.mul (Binary64.div (Binary64.sub y yref) yref)
                              (Binary64.of_int 100) in
        let sign := if Binary64.ge p Binary64.zero then "+"%string else ""%string in
        let* fixed := Binary64.toFixed p 2 in
        Js.Return (sign ++ fixed ++ "%")%string
  end.

End CursorDeltaAddon64.

(** *** Vocabulary and sample data of the binary64 layer *)

(** The projection of a row at a time, as the browser computes it. *)
Definition project64 (r : Binary64.line) (x : Binary64.number) : Binary64.number :=
  Binary64.add (Binary64.mul (Binary64.m r) x) (Binary64.b r).





(** The percentage both delta functions compute, with its three
    roundings. *)
Definition percent64 (observed reference : Binary64.number) : Binary64.number :=
  Binary64.mul (Binary64.div (Binary64.sub observed reference) reference)
               (Binary64.of_int 100).

(** 3 January 2023, 00:00 UTC, in milliseconds, and a day. *)
Definition jan_3_2023 : Z := 1672704000000.
Definition day_ms : Z := 86400000.



(** The same line as a record of [_mk_src]. *)
Definition record64_of (tl : BokehCursorDeltas64.trendline)
    : CursorDeltaAddon64.record :=
  (BokehCursorDeltas64.tl_x0 tl, BokehCursorDeltas64.tl_y0 tl,
   BokehCursorDeltas64.tl_x1 tl, BokehCursorDeltas64.tl_y1 tl).


(** A record whose second price is NaN, ending a day after [sample_level]. *)
Definition sample_nan : CursorDeltaAddon64.record :=
  (Py.Timestamp (ms_ns jan_3_2023), Binary64.Float (Binary64.of_int 150),
   Py.Timestamp (ms_ns (jan_3_2023 + 8 * day_ms)), Binary64.Float Binary64.NaN).

(** A level line: both anchors at 172.62, a week apart. *)
Definition sample_level : BokehCursorDeltas64.trendline :=
  {| BokehCursorDeltas64.tl_kind := "res";
     BokehCursorDeltas64.tl_x0 := Py.Timestamp (ms_ns jan_3_2023);
     BokehCursorDeltas64.tl_y0 := Binary64.Float (Binary64.decimal 17262 100);
     BokehCursorDeltas64.tl_x1 := Py.Timestamp (ms_ns (jan_3_2023 + 7 * day_ms));
     BokehCursorDeltas64.tl_y1 := Binary64.Float (Binary64.decimal 17262 100) |}.

(** Unfold one layer of the Python code, leaving arithmetic alone. *)
Ltac py_step :=
  cbn [BokehCursorDeltas.build_lines CursorDeltaAddon.fill
       Py.bind Py._to_ms Py.to_datetime_value Py.float].

Ltac py_step64 :=
  cbn [BokehCursorDeltas64.build_lines CursorDeltaAddon64.fill
       Py.bind Py._to_ms Py.to_datetime_value Binary64.float].

Section Compilers.

Import BokehCursorDeltas.

Lemma build_lines_typed (segs : list (string * Segment)) :
  forall res0 sup0,
    build_lines (map trendline_of segs) res0 sup0
    = Py.Ok (res0 ++ map (fun ks => compiled (snd ks))
                       (filter (fun ks => kept (snd ks) && is_res ks) segs),
             sup0 ++ map (fun ks => compiled (snd ks))
                       (filter (fun ks => kept (snd ks) && negb (is_res ks)) segs)).
Proof.
  induction segs as [|[k s] segs IH]; intros res0 sup0; simpl.
  - now rewrite !app_nil_r.
  - unfold kept, is_res, degenerate, time_ms; simpl.
    destruct (_ =? _); simpl.
    + apply IH.
    + destruct (String.eqb k "res"); simpl; rewrite IH, <- app_assoc; reflexivity.
Qed.

Lemma build_lines_ok (tls : list trendline) :
  forall res0 sup0 res sup,
    build_lines tls res0 sup0 = Py.Ok (res, sup) ->
    Forall line_ok res0 -> Forall line_ok sup0 ->
    Forall line_ok res /\ Forall line_ok sup.
Proof.
  induction tls as [|tl tls IH]; intros res0 sup0 res sup; py_step.
  - intros [= <- <-]; auto.
  - destruct (tl_x0 tl) as [n0|]; py_step; [|discriminate].
    destruct (tl_x1 tl) as [n1|]; py_step; [|discriminate].
    destruct (tl_y0 tl) as [p0|]; py_step; [|discriminate].
    destruct (tl_y1 tl) as [p1|]; py_step; [|discriminate].
    destruct (Z.eqb_spec (n1 / 10 ^ 6) (n0 / 10 ^ 6)) as [E|E].
    + apply IH.
    + assert (Hrec : forall l, Forall line_ok l -> Forall line_ok (l ++
        [{| x0 := n0; y0 := p0; x1 := n1; y1 := p1;
            x0ms := n0 / 10 ^ 6; x1ms := n1 / 10 ^ 6;
            m := ((p1 - p0) / inject_Z (n1 / 10 ^ 6 - n0 / 10 ^ 6))%Q;
            b := (p0 - (p1 - p0) / inject_Z (n1 / 10 ^ 6 - n0 / 10 ^ 6)
                       * inject_Z (n0 / 10 ^ 6))%Q;
            x_end := Z.max (n0 / 10 ^ 6) (n1 / 10 ^ 6) |}])).
      { intros l Hl. apply Forall_app; split; [exact Hl|].
        constructor; [|constructor]. unfold line_ok; simpl. tauto. }
      destruct (String.eqb (tl_kind tl) "res"); intros H Hr Hs;
        eapply IH; eauto.
Qed.

Lemma build_lines_raises (tls : list trendline) :
  forall res0 sup0,
    existsb malformed tls = true ->
    exists e, build_lines tls res0 sup0 = Py.Raise e.
Proof.
  induction tls as [|tl tls IH]; intros res0 sup0; [discriminate|].
  cbn [existsb]; unfold malformed; py_step.
  destruct (tl_x0 tl) as [n0|]; py_step; [|eauto].
  destruct (tl_x1 tl) as [n1|]; py_step; [|eauto].
  destruct (tl_y0 tl) as [p0|]; py_step; [|eauto].
  destruct (tl_y1 tl) as [p1|]; py_step; [|eauto].
  cbn [bad_time bad_value orb]; intros H.
  destruct (_ =? _); [|destruct (String.eqb _ _)]; now apply IH.
Qed.

Lemma build_lines_returns (tls : list trendline) :
  forall res0 sup0,
    existsb malformed tls = false ->
    exists res sup, build_lines tls res0 sup0 = Py.Ok (res, sup).
Proof.
  induction tls as [|tl tls IH]; intros res0 sup0; py_step; [eauto|].
  cbn [existsb]; unfold malformed.
  destruct (tl_x0 tl) as [n0|]; [|discriminate].
  destruct (tl_x1 tl) as [n1|]; [|discriminate].
  destruct (tl_y0 tl) as [p0|]; [|discriminate].
  destruct (tl_y1 tl) as [p1|]; [|discriminate].
  py_step; cbn [bad_time bad_value orb]; intros H.
  destruct (_ =? _); [|destruct (String.eqb _ _)]; now apply IH.
Qed.

End Compilers.

Section AddonCompiler.

Import CursorDeltaAddon.

Lemma columns_snoc (ls : list line) (r : line) :
  {| col_x0 := col_x0 (columns ls) ++ [x0 r];
     col_y0 := col_y0 (columns ls) ++ [y0 r];
     col_x1 := col_x1 (columns ls) ++ [x1 r];
     col_y1 := col_y1 (columns ls) ++ [y1 r];
     col_x0ms := col_x0ms (columns ls) ++ [x0ms r];
     col_x1ms := col_x1ms (columns ls) ++ [x1ms r];
     col_m := col_m (columns ls) ++ [m r];
     col_b := col_b (columns ls) ++ [b r];
     col_x_end := col_x_end (columns ls) ++ [x_end r] |}
  = columns (ls ++ [r]).
Proof. unfold columns; cbn [col_x0 col_y0 col_x1 col_y1 col_x0ms col_x1ms col_m col_b col_x_end].
  now rewrite !map_app. Qed.

Lemma fill_typed (segs : list Segment) :
  forall ls0,
    fill (map record_of segs) (columns ls0)
    = Py.Ok (columns (ls0 ++ map compiled (filter kept segs))).
Proof.
  induction segs as [|s segs IH]; intros ls0; cbn [map filter]; py_step.
  - now rewrite app_nil_r.
  - unfold record_of at 1; py_step.
    unfold kept at 1, degenerate, time_ms.
    destruct (_ =? _); cbn [negb].
    + apply IH.
    + specialize (IH (ls0 ++ [compiled s])).
      rewrite <- app_assoc in IH. cbn [app map] in IH |- *.
      rewrite <- IH. f_equal. exact (columns_snoc ls0 (compiled s)).
Qed.

Lemma fill_ok (records : list record) :
  forall ls0 out,
    fill records (columns ls0) = Py.Ok out ->
    Forall line_ok ls0 ->
    exists ls, out = columns ls /\ Forall line_ok ls.
Proof.
  induction records as [|[[[t0 v0] t1] v1] records IH]; intros ls0 out; py_step.
  - intros [= <-] H. eauto.
  - destruct t0 as [n0|]; py_step; [|discriminate].
    destruct t1 as [n1|]; py_step; [|discriminate].
    destruct (Z.eqb_spec (n1 / 10 ^ 6) (n0 / 10 ^ 6)) as [E|E]; [apply IH|].
    destruct v1 as [p1|]; py_step; [|discriminate].
    destruct v0 as [p0|]; py_step; [|discriminate].
    pose (r := {| x0 := n0; y0 := p0; x1 := n1; y1 := p1;
                  x0ms := n0 / 10 ^ 6; x1ms := n1 / 10 ^ 6;
                  m := ((p1 - p0) / inject_Z (n1 / 10 ^ 6 - n0 / 10 ^ 6))%Q;
                  b := (p0 - (p1 - p0) / inject_Z (n1 / 10 ^ 6 - n0 / 10 ^ 6)
                             * inject_Z (n0 / 10 ^ 6))%Q;
                  x_end := Z.max (n0 / 10 ^ 6) (n1 / 10 ^ 6) |}).
    intros H Hls. apply (IH (ls0 ++ [r]) out).
    { rewrite <- (columns_snoc ls0 r). exact H. }
    apply Forall_app; split; [exact Hls|].
    constructor; [|constructor]. unfold line_ok, r; simpl. tauto.
Qed.

Lemma mk_src_ok (records : list record) (src : ColumnDataSource) :
  _mk_src records = Py.Ok src ->
  exists ls, src = columns ls /\ Forall line_ok ls.
Proof.
  unfold _mk_src. destruct records as [|r records].
  - intros [= <-]. exists []. split; [reflexivity|constructor].
  - intros H. apply (fill_ok (r :: records) [] src); [exact H|constructor].
Qed.

Lemma mk_src_typed (segs : list Segment) :
  _mk_src (map record_of segs) = Py.Ok (columns (map compiled (filter kept segs))).
Proof.
  unfold _mk_src. destruct segs as [|s segs]; [reflexivity|].
  cbn [map]. apply (fill_typed (s :: segs) []).
Qed.

Lemma fill_raises (records : list record) :
  forall out, existsb aborting records = true ->
              exists e, fill records out = Py.Raise e.
Proof.
  induction records as [|[[[t0 v0] t1] v1] records IH]; intros out;
    [discriminate|].
  cbn [existsb aborting]; py_step.
  destruct t0 as [n0|]; py_step; [|eauto].
  destruct t1 as [n1|]; py_step; [|eauto].
  destruct (_ =? _); cbn [negb andb orb]; [apply IH|].
  destruct v1 as [p1|]; py_step; [|eauto].
  destruct v0 as [p0|]; py_step; [|eauto].
  cbn [bad_value orb]. apply IH.
Qed.

Lemma fill_returns (records : list record) :
  forall out, existsb aborting records = false ->
              exists out', fill records out = Py.Ok out'.
Proof.
  induction records as [|[[[t0 v0] t1] v1] records IH]; intros out;
    py_step; [eauto|].
  cbn [existsb aborting].
  destruct t0 as [n0|]; [|discriminate].
  destruct t1 as [n1|]; [|discriminate]. py_step.
  destruct (_ =? _); cbn [negb andb orb]; [apply IH|].
  destruct v1 as [p1|]; [|destruct v0; discriminate].
  destruct v0 as [p0|]; [|discriminate].
  py_step. cbn [bad_value orb]. apply IH.
Qed.

End AddonCompiler.

(* ================================================================== *)
(** ** Binary64: signs, symmetry, and the rows of the compilers        *)
(* ================================================================== *)

Section Binary64Facts.

Import Binary64.


Lemma sub_diag (s : bool) (m : positive) (e : Z) :
  sub (S754_finite s m e) (S754_finite s m e) = S754_zero false.
Proof. unfold sub, SFsub. now rewrite Z.sub_diag. Qed.










End Binary64Facts.

Section Compilers64.

Import BokehCursorDeltas64.


End Compilers64.

Section AddonCompiler64.

Import CursorDeltaAddon64.




End AddonCompiler64.




(* ================================================================== *)
(** ** The scan of [prevY] / [yPrevAtDate]                             *)
(* ================================================================== *)

Lemma ge_Fin (p q : Q) : Js.ge (Js.Fin p) (Js.Fin q) = true <-> (q <= p)%Q.
Proof.
  unfold Js.ge, Js.compare. rewrite Qle_alt, <- (Qcompare_antisym p q).
  destruct (p ?= q)%Q; simpl; split; (congruence || intros _; congruence).
Qed.

Lemma gt_of_int (a e : Z) : Js.gt (Js.of_int a) (Js.of_int e) = true <-> e < a.
Proof.
  unfold Js.gt, Js.of_int, Js.compare. rewrite Zlt_Qlt, Qlt_alt.
  rewrite <- (Qcompare_antisym (inject_Z a) (inject_Z e)).
  destruct (inject_Z a ?= inject_Z e)%Q; simpl; split; congruence.
Qed.

Lemma nth_map_Some {A B : Type} (f : A -> B) (d : B) (l : list A) :
  forall i a, nth_error l i = Some a -> nth i (map f l) d = f a.
Proof.
  induction l as [|h l IH]; intros [|i] a; simpl; try discriminate.
  - now intros [= ->].
  - apply IH.
Qed.

Lemma yPrevAtDate_is_prevY (src : ColumnDataSource) (x : Js.number) :
  CursorDeltaAddon.yPrevAtDate src x = BokehCursorDeltas.prevY src x.
Proof. reflexivity. Qed.

Section Scan.

Import BokehCursorDeltas.

Variable ls : list line.
Variable t : Q.


Lemma scan_S (k : nat) :
  scan ls t (S k) = prevY_step (columns ls) (Js.Fin t) (scan ls t k) k.
Proof. unfold scan. now rewrite seq_S, fold_left_app. Qed.

Lemma prevY_scan : prevY (columns ls) (Js.Fin t) = snd (scan ls t (length ls)).
Proof.
  unfold prevY, scan, data_x_end, columns; cbn [col_x_end].
  now rewrite !length_map.
Qed.

Lemma prevY_step_row (st : Js.number * Js.value) (k : nat) (r : line) :
  nth_error ls k = Some r ->
  prevY_step (columns ls) (Js.Fin t) st k
  = if Js.ge (Js.Fin t) (Js.of_int (x_end r))
       && Js.gt (Js.of_int (x_end r)) (fst st)
    then (Js.of_int (x_end r), Js.Num (Js.Fin (m r * t + b r)%Q))
    else st.
Proof.
  intros H. unfold prevY_step, Js.index, data_x_end, data_m, data_b, columns;
    cbn [col_x_end col_m col_b].
  rewrite (nth_map_Some Js.of_int Js.NaN _ k (x_end r))
    by (now apply map_nth_error).
  rewrite (nth_map_Some Js.Fin Js.NaN _ k (m r)) by (now apply map_nth_error).
  rewrite (nth_map_Some Js.Fin Js.NaN _ k (b r)) by (now apply map_nth_error).
  reflexivity.
Qed.

Lemma scan_scanned (k : nat) : (k <= length ls)%nat -> scanned ls t k (scan ls t k).
Proof.
  induction k as [|k IH]; intros Hk.
  - left. split; [reflexivity|]. intros j r' Hj. lia.
  - rewrite scan_S.
    destruct (nth_error ls k) as [rk|] eqn:Ek;
      [|apply nth_error_None in Ek; lia].
    rewrite (prevY_step_row _ k rk Ek).
    assert (Hlast : forall j r', (j < S k)%nat -> nth_error ls j = Some r' ->
              (j < k)%nat \/ (j = k /\ r' = rk)).
    { intros j r' Hj Hr. destruct (Nat.eq_dec j k) as [->|]; [right|left; lia].
      split; congruence. }
    destruct (IH ltac:(lia)) as [[-> Hnone]|(i & r & Hi & Hr & Hle & Hmax & Hfirst & ->)];
      cbn [fst].
    + (* nothing selected so far *)
      destruct (Js.ge (Js.Fin t) (Js.of_int (x_end rk))) eqn:Ege.
      * right. exists k, rk. apply ge_Fin in Ege.
        repeat split; auto with arith.
        -- intros j r' Hj Hr' Hq.
           destruct (Hlast j r' Hj Hr') as [Hlt|[_ ->]]; [|lia].
           specialize (Hnone j r' Hlt Hr'). exfalso. revert Hnone Hq. apply Qlt_not_le.
        -- intros j r' Hj Hr' Heq. specialize (Hnone j r' Hj Hr').
           rewrite Heq in Hnone. revert Hnone Ege. apply Qlt_not_le.
      * left. split; [reflexivity|]. intros j r' Hj Hr'.
        destruct (Hlast j r' Hj Hr') as [Hlt|[_ ->]]; [now apply (Hnone j)|].
        apply Qnot_le_lt. intros Hq. apply ge_Fin in Hq.
        unfold Js.of_int in Ege. congruence.
    + (* row [i] selected so far *)
      destruct (Js.ge (Js.Fin t) (Js.of_int (x_end rk))) eqn:Ege; cbn [andb].
      * apply ge_Fin in Ege.
        destruct (Js.gt (Js.of_int (x_end rk)) (Js.of_int (x_end r))) eqn:Egt.
        -- apply gt_of_int in Egt. right. exists k, rk.
           repeat split; auto with arith.
           ++ intros j r' Hj Hr' Hq.
              destruct (Hlast j r' Hj Hr') as [Hlt|[_ ->]]; [|lia].
              specialize (Hmax j r' Hlt Hr' Hq). lia.
           ++ intros j r' Hj Hr' Heq.
              destruct (Qlt_le_dec t (inject_Z (x_end r'))) as [Hgt|Hq].
              ** rewrite Heq in Hgt. revert Hgt Ege. apply Qlt_not_le.
              ** specialize (Hmax j r' Hj Hr' Hq). lia.
        -- assert (x_end rk <= x_end r).
           { apply Z.nlt_ge. intros Hlt. apply gt_of_int in Hlt. congruence. }
           right. exists i, r. repeat split; auto with arith.
           intros j r' Hj Hr' Hq.
           destruct (Hlast j r' Hj Hr') as [Hlt|[_ ->]]; [|assumption].
           now apply (Hmax j).
      * right. exists i, r. repeat split; auto with arith.
        intros j r' Hj Hr' Hq.
        destruct (Hlast j r' Hj Hr') as [Hlt|[_ ->]]; [now apply (Hmax j)|].
        apply ge_Fin in Hq. unfold Js.of_int in Ege. congruence.
Qed.

(** What the whole scan returns. *)
Lemma prevY_columns :
  (prevY (columns ls) (Js.Fin t) = Js.Null /\
   forall r, In r ls -> (t < inject_Z (x_end r))%Q)
  \/
  (exists i r, most_recent_at ls t i r /\
               prevY (columns ls) (Js.Fin t) = Js.Num (Js.Fin (m r * t + b r)%Q)).
Proof.
  rewrite prevY_scan.
  destruct (scan_scanned (length ls) (Nat.le_refl _))
    as [[-> Hnone]|(i & r & Hi & Hr & Hle & Hmax & Hfirst & ->)].
  - left. split; [reflexivity|]. intros r Hin.
    destruct (In_nth_error _ _ Hin) as [j Hj].
    apply (Hnone j); [|exact Hj]. apply nth_error_Some. congruence.
  - right. exists i, r. split; [|reflexivity].
    repeat split; auto.
    intros j r' Hj. apply (Hmax j); [|exact Hj]. apply nth_error_Some. congruence.
Qed.

(** The most recent row is unique: the scan has one possible answer. *)
Lemma most_recent_at_unique (i j : nat) (r r' : line) :
  most_recent_at ls t i r -> most_recent_at ls t j r' -> i = j /\ r = r'.
Proof.
  intros (Hi & Hle & Hmax & Hfirst) (Hj & Hle' & Hmax' & Hfirst').
  assert (E : x_end r = x_end r').
  { apply Z.le_antisymm; [apply (Hmax' i)|apply (Hmax j)]; assumption. }
  assert (i = j).
  { destruct (Nat.lt_trichotomy i j) as [H|[H|H]]; [|exact H|].
    - exfalso. apply (Hfirst' i r H Hi). exact E.
    - exfalso. apply (Hfirst j r' H Hj). now symmetry. }
  subst j. split; [reflexivity|congruence].
Qed.

End Scan.

Lemma mk_source_columns (ls : list line) :
  BokehCursorDeltas._mk_source ls = columns ls.
Proof. destruct ls; reflexivity. Qed.


(* ================================================================== *)
(** ** Selection of the most recent segment                            *)
(* ================================================================== *)

(** C1.  On the source built from the compiled segments [ls], at a finite
    query time [t], [prevY] (and [yPrevAtDate], which computes the same)
    returns [null] when no segment has ended by [t], the empty source
    included; otherwise it returns the projection at [t] of a segment whose
    end is at most [t] (a segment ending exactly at [t] qualifies) and at
    least the end of every other segment that ended by [t]. *)
Theorem prevY_most_recent (ls : list line) (t : Q) :
  let src := BokehCursorDeltas._mk_source ls in
  CursorDeltaAddon.yPrevAtDate src (Js.Fin t)
  = BokehCursorDeltas.prevY src (Js.Fin t) /\
  ((forall r, In r ls -> (t < inject_Z (x_end r))%Q) ->
   BokehCursorDeltas.prevY src (Js.Fin t) = Js.Null) /\
  (forall r0, In r0 ls -> (inject_Z (x_end r0) <= t)%Q ->
     exists r,
       In r ls /\ (inject_Z (x_end r) <= t)%Q /\
       (forall r', In r' ls -> (inject_Z (x_end r') <= t)%Q ->
                   x_end r' <= x_end r) /\
       BokehCursorDeltas.prevY src (Js.Fin t) = Js.Num (Js.Fin (project r t))).
Proof.
  cbv zeta. rewrite mk_source_columns. split; [reflexivity|].
  destruct (prevY_columns ls t) as [[Hnull Hnone]|(i & r & Hr & Hres)].
  - split; [intros _; exact Hnull|].
    intros r0 Hin Hle. exfalso.
    apply (Qlt_not_le _ _ (Hnone r0 Hin) Hle).
  - destruct Hr as (Hi & Hle & Hmax & _).
    pose proof (nth_error_In _ _ Hi) as Hin.
    split.
    + intros Hnone. exfalso. apply (Qlt_not_le _ _ (Hnone r Hin) Hle).
    + intros _ _ _. exists r. repeat split; auto.
      intros r' Hin' Hle'. destruct (In_nth_error _ _ Hin') as [j Hj].
      now apply (Hmax j).
Qed.

Lemma prevY_most_recent_witness :
  BokehCursorDeltas.prevY
    (BokehCursorDeltas._mk_source (map compiled [sample_sup; sample_res]))
    (Js.Fin 89) = Js.Null /\
  exists r,
    In r (map compiled [sample_sup; sample_res]) /\ x_end r = 100 /\
    BokehCursorDeltas.prevY
      (BokehCursorDeltas._mk_source (map compiled [sample_sup; sample_res]))
      (Js.Fin 100) = Js.Num (Js.Fin (project r 100)).
Proof.
  split.
  - apply (prevY_most_recent (map compiled [sample_sup; sample_res]) 89).
    intros r [<-|[<-|[]]]; vm_compute; reflexivity.
  - destruct (prevY_most_recent (map compiled [sample_sup; sample_res]) 100)
      as (_ & _ & H).
    destruct (H (compiled sample_res)) as (r & Hin & Hle & Hmax & Hres).
    + right; left; reflexivity.
    + vm_compute; discriminate.
    + exists r. split; [exact Hin|]. split; [|exact Hres].
      assert (Hge : x_end (compiled sample_res) <= x_end r).
      { apply Hmax; [right; left; reflexivity|vm_compute; discriminate]. }
      destruct Hin as [<-|[<-|[]]]; [exfalso; apply Hge|]; reflexivity.
Defined.

Lemma prevY_of_most_recent (ls : list line) (t : Q) (i : nat) (r : line) :
  most_recent_at ls t i r ->
  BokehCursorDeltas.prevY (BokehCursorDeltas._mk_source ls) (Js.Fin t)
  = Js.Num (Js.Fin (project r t)).
Proof.
  intros Hr. rewrite mk_source_columns.
  destruct (prevY_columns ls t) as [[_ Hnone]|(j & r' & Hr' & ->)].
  - destruct Hr as (Hi & Hle & _). exfalso.
    apply (Qlt_not_le _ _ (Hnone r (nth_error_In _ _ Hi)) Hle).
  - destruct (most_recent_at_unique ls t j i r' r Hr' Hr) as [_ ->]. reflexivity.
Qed.

(** C8.  Ties are broken by a fixed rule: among the segments with the
    greatest end not after [t], the one that comes first in the source is
    used.  [most_recent_at ls t i r] pins down one row, whatever the number
    of rows sharing its end, and that row's projection is what [prevY] and
    [yPrevAtDate] return. *)
Theorem tie_break_first (ls : list line) (t : Q) (i : nat) (r : line) :
  most_recent_at ls t i r ->
  BokehCursorDeltas.prevY (BokehCursorDeltas._mk_source ls) (Js.Fin t)
  = Js.Num (Js.Fin (project r t)) /\
  CursorDeltaAddon.yPrevAtDate (BokehCursorDeltas._mk_source ls) (Js.Fin t)
  = Js.Num (Js.Fin (project r t)).
Proof.
  intros Hr. split; exact (prevY_of_most_recent ls t i r Hr).
Qed.

Lemma tie_break_first_witness :
  most_recent_at (map compiled [sample_tie_a; sample_tie_b]) 100 0
                 (compiled sample_tie_a) /\
  x_end (compiled sample_tie_a) = x_end (compiled sample_tie_b) /\
  BokehCursorDeltas.prevY
    (BokehCursorDeltas._mk_source (map compiled [sample_tie_a; sample_tie_b]))
    (Js.Fin 100)
  = Js.Num (Js.Fin (project (compiled sample_tie_a) 100)).
Proof.
  assert (H : most_recent_at (map compiled [sample_tie_a; sample_tie_b]) 100 0
                             (compiled sample_tie_a)).
  { split; [reflexivity|]. split; [vm_compute; discriminate|]. split.
    - intros [|[|[|j]]] r'; simpl; intros [= <-] _; vm_compute; discriminate.
    - intros j r' Hj. inversion Hj. }
  split; [exact H|]. split; [reflexivity|].
  apply (tie_break_first _ 100 0 _ H).
Defined.

(* ================================================================== *)
(** ** Compilation of segments                                         *)
(* ================================================================== *)

Lemma three_way_count (segs : list (string * Segment)) :
  (length (filter (fun ks => kept (snd ks) && is_res ks) segs)
   + length (filter (fun ks => kept (snd ks) && negb (is_res ks)) segs)
   + length (filter (fun ks => degenerate (snd ks)) segs)
   = length segs)%nat.
Proof.
  induction segs as [|ks segs IH]; [reflexivity|]. cbn [filter]. unfold kept in *.
  destruct (degenerate (snd ks)), (is_res ks); cbn [negb andb length]; lia.
Qed.

(** C5.  On segments with numeric anchors, the loop of
    [plot_with_prev_deltas] raises nothing and drops exactly the segments
    whose two timestamps fall in the same millisecond: the two lists it
    builds hold at most as many lines as there were segments, the lines
    missing are as many as the degenerate segments, every other segment has
    its line in the list of its kind, and every line comes from a
    non-degenerate segment.  [_mk_src] produces the columns of the same
    lines. *)
Theorem degenerate_segments_dropped (segs : list (string * Segment)) :
  exists res sup,
    BokehCursorDeltas.build_lines (map trendline_of segs) [] [] = Py.Ok (res, sup) /\
    (length res + length sup <= length segs)%nat /\
    (length res + length sup
     + length (filter (fun ks => degenerate (snd ks)) segs) = length segs)%nat /\
    (forall ks, In ks segs -> degenerate (snd ks) = false ->
                In (compiled (snd ks)) (if is_res ks then res else sup)) /\
    (forall r, In r (res ++ sup) ->
               x1ms r <> x0ms r /\
               exists ks, In ks segs /\ degenerate (snd ks) = false /\
                          r = compiled (snd ks)) /\
    CursorDeltaAddon._mk_src (map record_of (map snd segs))
    = Py.Ok (columns (map compiled (filter kept (map snd segs)))).
Proof.
  eexists _, _. split; [apply build_lines_typed|]. cbn [app].
  pose proof (three_way_count segs) as Hcount.
  rewrite !length_map. repeat split.
  - lia.
  - exact Hcount.
  - intros ks Hin Hdeg. destruct (is_res ks) eqn:Eres;
      apply (in_map (fun ks => compiled (snd ks))), filter_In;
      (split; [exact Hin|]); unfold kept; now rewrite Hdeg, Eres.
  - apply in_app_or in H.
    assert (Hks : exists ks, In ks segs /\ kept (snd ks) = true
                             /\ r = compiled (snd ks)).
    { destruct H as [H|H]; apply in_map_iff in H; destruct H as (ks & <- & H);
        apply filter_In in H; destruct H as [Hin Hk];
        apply andb_prop in Hk; exists ks; tauto. }
    destruct Hks as (ks & _ & Hk & ->). unfold kept, degenerate in Hk.
    cbn [compiled x1ms x0ms]. apply Z.eqb_neq. now destruct (_ =? _).
  - apply in_app_or in H.
    destruct H as [H|H]; apply in_map_iff in H; destruct H as (ks & <- & H);
      apply filter_In in H; destruct H as [Hin Hk];
      apply andb_prop in Hk; exists ks; unfold kept in Hk;
      destruct (degenerate (snd ks)); intuition discriminate.
  - apply mk_src_typed.
Qed.

Lemma degenerate_segments_dropped_witness :
  exists res sup,
    BokehCursorDeltas.build_lines
      (map trendline_of [("res", sample_res); ("sup", sample_degenerate);
                         ("sup", sample_sup)]%string) [] []
    = Py.Ok (res, sup) /\
    In (compiled sample_sup) sup /\
    ~ In (compiled sample_degenerate) (res ++ sup).
Proof.
  destruct (degenerate_segments_dropped
              [("res", sample_res); ("sup", sample_degenerate);
               ("sup", sample_sup)]%string)
    as (res & sup & Hrun & _ & _ & Hkept & Hfrom & _).
  exists res, sup. split; [exact Hrun|]. split.
  - apply (Hkept ("sup"%string, sample_sup)); [right; right; left|]; reflexivity.
  - intros Hin. destruct (Hfrom _ Hin) as [Hne _]. apply Hne. reflexivity.
Defined.




(** C10.  The key of a compiled line is the later of its two anchor
    milliseconds, [x_end = max(x0ms, x1ms)], in the output of both
    compilers; so a segment given with its anchors in reverse order is
    selected from the millisecond of its first-listed (later) anchor on. *)
Theorem x_end_is_later_anchor :
  (forall tls res sup r,
      BokehCursorDeltas.build_lines tls [] [] = Py.Ok (res, sup) ->
      In r (res ++ sup) ->
      x_end r = Z.max (x0ms r) (x1ms r) /\
      x0ms r = x0 r / 10 ^ 6 /\ x1ms r = x1 r / 10 ^ 6) /\
  (forall records src,
      CursorDeltaAddon._mk_src records = Py.Ok src ->
      exists ls, src = columns ls /\
                 Forall (fun r => x_end r = Z.max (x0ms r) (x1ms r) /\
                                  x0ms r = x0 r / 10 ^ 6 /\
                                  x1ms r = x1 r / 10 ^ 6) ls) /\
  (forall s t,
      degenerate s = false ->
      time_ms (anchor_end s) <= time_ms (anchor_start s) ->
      exists src,
        CursorDeltaAddon._mk_src [record_of s] = Py.Ok src /\
        col_x_end src = [time_ms (anchor_start s)] /\
        CursorDeltaAddon.yPrevAtDate src (Js.Fin t)
        = if Qle_bool (inject_Z (time_ms (anchor_start s))) t
          then Js.Num (Js.Fin (project (compiled s) t))
          else Js.Null).
Proof.
  split; [|split].
  - intros tls res sup r Hrun Hin.
    destruct (build_lines_ok tls [] [] res sup Hrun) as [Hres Hsup];
      [constructor|constructor|].
    apply in_app_or in Hin. rewrite Forall_forall in Hres, Hsup.
    assert (Hok : line_ok r) by (destruct Hin; auto).
    unfold line_ok in Hok. tauto.
  - intros records src Hrun.
    destruct (mk_src_ok records src Hrun) as (ls & -> & Hok).
    exists ls. split; [reflexivity|].
    eapply Forall_impl; [|exact Hok]. unfold line_ok. tauto.
  - intros s t Hdeg Hrev.
    exists (columns [compiled s]). split.
    { pose proof (mk_src_typed [s]) as H. cbn [map filter] in H.
      unfold kept in H. rewrite Hdeg in H. exact H. }
    assert (Hmax : x_end (compiled s) = time_ms (anchor_start s)).
    { cbn [compiled x_end]. now apply Z.max_l. }
    split; [cbn [columns col_x_end map]; now rewrite Hmax|].
    rewrite yPrevAtDate_is_prevY.
    destruct (prevY_columns [compiled s] t) as [[-> Hnone]|(i & r & Hr & ->)].
    + specialize (Hnone _ (or_introl eq_refl)). rewrite Hmax in Hnone.
      destruct (Qle_bool _ t) eqn:E; [|reflexivity].
      apply Qle_bool_iff in E. exfalso. exact (Qlt_not_le _ _ Hnone E).
    + destruct Hr as (Hi & Hle & _).
      assert (r = compiled s) as ->.
      { apply nth_error_In in Hi. destruct Hi as [<-|[]]. reflexivity. }
      rewrite Hmax in Hle. apply Qle_bool_iff in Hle. now rewrite Hle.
Qed.

Lemma x_end_is_later_anchor_witness :
  exists src,
    CursorDeltaAddon._mk_src [record_of sample_reversed] = Py.Ok src /\
    col_x_end src = [200] /\
    CursorDeltaAddon.yPrevAtDate src (Js.Fin 150) = Js.Null.
Proof.
  destruct (proj2 (proj2 x_end_is_later_anchor) sample_reversed 150%Q)
    as (src & Hrun & Hcol & Hsel).
  - reflexivity.
  - vm_compute; discriminate.
  - exists src. split; [exact Hrun|]. split; [exact Hcol|exact Hsel].
Defined.

(** C9, as the code has it.  Neither compiler rejects a segment on its own:
    in [plot_with_prev_deltas] any trend line with an anchor that
    [pd.to_datetime] or [float] refuses makes the whole call raise, and the
    call completes exactly when there is none; likewise for [_mk_src], where
    a price is converted only once the two timestamps were found to fall in
    different milliseconds. *)
Theorem conversion_error_aborts :
  (forall tls,
      existsb malformed tls = true ->
      exists e, BokehCursorDeltas.plot_with_prev_deltas tls = Py.Raise e) /\
  (forall tls,
      existsb malformed tls = false ->
      exists srcs, BokehCursorDeltas.plot_with_prev_deltas tls = Py.Ok srcs) /\
  (forall records,
      existsb aborting records = true ->
      exists e, CursorDeltaAddon._mk_src records = Py.Raise e) /\
  (forall records,
      existsb aborting records = false ->
      exists src, CursorDeltaAddon._mk_src records = Py.Ok src).
Proof.
  unfold BokehCursorDeltas.plot_with_prev_deltas, CursorDeltaAddon._mk_src.
  repeat split.
  - intros tls H. destruct (build_lines_raises tls [] [] H) as [e ->].
    exists e. reflexivity.
  - intros tls H. destruct (build_lines_returns tls [] [] H) as (res & sup & ->).
    eexists. reflexivity.
  - intros [|r records] H; [discriminate|]. now apply fill_raises.
  - intros [|r records] H; [eauto|]. now apply fill_returns.
Qed.

Lemma conversion_error_aborts_witness :
  exists e,
    BokehCursorDeltas.plot_with_prev_deltas
      [trendline_of ("sup"%string, sample_sup); sample_bad] = Py.Raise e.
Proof.
  apply (proj1 conversion_error_aborts). reflexivity.
Defined.

(** C9, as the specification has it, fails: with one good and one bad trend
    line nothing is compiled, the good one included. *)
Lemma conversion_error_not_isolated :
  BokehCursorDeltas.plot_with_prev_deltas
    [trendline_of ("sup"%string, sample_sup); sample_bad]
  = Py.Raise Py.FloatConversionError /\
  CursorDeltaAddon._mk_src [record_of sample_sup; sample_bad_record]
  = Py.Raise Py.FloatConversionError /\
  ~ (exists res sup,
        BokehCursorDeltas.build_lines
          [trendline_of ("sup"%string, sample_sup); sample_bad] [] []
        = Py.Ok (res, sup) /\ In (compiled sample_sup) sup).
Proof.
  split; [reflexivity|]. split; [reflexivity|].
  intros (res & sup & H & _). discriminate H.
Qed.

(* ================================================================== *)
(** ** Decimal digits and [toFixed]                                    *)
(* ================================================================== *)

Section Strings.

Open Scope string_scope.

Lemma length_app (s1 s2 : string) :
  String.length (s1 ++ s2) = (String.length s1 + String.length s2)%nat.
Proof. induction s1 as [|c s1 IH]; simpl; [reflexivity|now rewrite IH]. Qed.

Lemma substring_all (s : string) : substring 0 (String.length s) s = s.
Proof. induction s as [|c s IH]; simpl; [reflexivity|now rewrite IH]. Qed.

Lemma substring_app_l (s1 s2 : string) :
  substring 0 (String.length s1) (s1 ++ s2) = s1.
Proof.
  induction s1 as [|c s1 IH]; simpl; [now destruct s2|now rewrite IH].
Qed.

Lemma substring_app_r (s1 s2 : string) :
  substring (String.length s1) (String.length s2) (s1 ++ s2) = s2.
Proof.
  induction s1 as [|c s1 IH]; simpl; [apply substring_all|exact IH].
Qed.

Lemma app_assoc_string (s1 s2 s3 : string) : (s1 ++ s2) ++ s3 = s1 ++ s2 ++ s3.
Proof. induction s1 as [|c s1 IH]; simpl; [reflexivity|now rewrite IH]. Qed.

End Strings.

Section Digits.

Import Js.

Lemma pow2_le_pow10 (k : Z) : 0 <= k -> 2 ^ k <= 10 ^ k.
Proof. intros Hk. apply Z.pow_le_mono_l. lia. Qed.

Lemma lt_pow10_log2 (n : Z) : 0 <= n -> n < 10 ^ (Z.log2 n + 1).
Proof.
  intros Hn. destruct (Z.eq_dec n 0) as [->|Hne]; [reflexivity|].
  pose proof (Z.log2_spec n ltac:(lia)) as [_ Hlt].
  pose proof (Z.log2_nonneg n).
  pose proof (pow2_le_pow10 (Z.log2 n + 1) ltac:(lia)).
  unfold Z.succ in Hlt. lia.
Qed.

Lemma digits_fuel_indep (f1 : nat) :
  forall f2 n,
    0 <= n -> n < 10 ^ (Z.of_nat f1 + 1) -> n < 10 ^ (Z.of_nat f2 + 1) ->
    digits_fuel f1 n = digits_fuel f2 n.
Proof.
  induction f1 as [|f1 IH]; intros f2 n Hn H1 H2.
  - change (10 ^ (Z.of_nat 0 + 1)) with 10 in H1.
    cbn [digits_fuel]. rewrite (Z.mod_small n 10) by lia.
    destruct f2 as [|f2]; cbn [digits_fuel].
    + now rewrite (Z.mod_small n 10) by lia.
    + destruct (Z.ltb_spec n 10); [reflexivity|lia].
  - cbn [digits_fuel]. destruct (Z.ltb_spec n 10) as [Hs|Hb].
    + destruct f2 as [|f2]; cbn [digits_fuel].
      * now rewrite (Z.mod_small n 10) by lia.
      * destruct (Z.ltb_spec n 10); [reflexivity|lia].
    + destruct f2 as [|f2].
      * change (10 ^ (Z.of_nat 0 + 1)) with 10 in H2. lia.
      * cbn [digits_fuel]. destruct (Z.ltb_spec n 10); [lia|].
        f_equal. apply IH.
        -- apply Z.div_pos; lia.
        -- apply Z.div_lt_upper_bound; [lia|].
           rewrite <- Z.pow_succ_r by lia.
           replace (Z.succ (Z.of_nat f1 + 1)) with (Z.of_nat (S f1) + 1) by lia.
           exact H1.
        -- apply Z.div_lt_upper_bound; [lia|].
           rewrite <- Z.pow_succ_r by lia.
           replace (Z.succ (Z.of_nat f2 + 1)) with (Z.of_nat (S f2) + 1) by lia.
           exact H2.
Qed.

Lemma digits_small (n : Z) :
  0 <= n < 10 -> digits n = String (digit n) EmptyString.
Proof.
  intros Hn. unfold digits.
  rewrite (digits_fuel_indep _ 0%nat n); [| lia | | change (n < 10); lia].
  - cbn [digits_fuel]. now rewrite Z.mod_small.
  - rewrite Z2Nat.id by apply Z.log2_nonneg. apply lt_pow10_log2. lia.
Qed.

Lemma digits_step (n : Z) :
  10 <= n ->
  digits n = (digits (n / 10) ++ String (digit (n mod 10)) EmptyString)%string.
Proof.
  intros Hn. unfold digits.
  assert (Hq : 0 < n / 10) by (apply Z.div_str_pos; lia).
  rewrite (digits_fuel_indep _ (S (Z.to_nat (Z.log2 (n / 10)))) n).
  - cbn [digits_fuel]. destruct (Z.ltb_spec n 10); [lia|reflexivity].
  - lia.
  - rewrite Z2Nat.id by apply Z.log2_nonneg. apply lt_pow10_log2. lia.
  - rewrite Nat2Z.inj_succ, Z2Nat.id by apply Z.log2_nonneg.
    pose proof (lt_pow10_log2 (n / 10) ltac:(lia)) as H.
    pose proof (Z.log2_nonneg (n / 10)).
    replace (Z.succ (Z.log2 (n / 10)) + 1) with (Z.succ (Z.log2 (n / 10) + 1)) by lia.
    rewrite Z.pow_succ_r by lia.
    pose proof (Z.mod_pos_bound n 10 ltac:(lia)).
    pose proof (Z.div_mod n 10 ltac:(lia)). lia.
Qed.

Lemma digits_nonempty (n : Z) : 0 <= n -> (1 <= String.length (digits n))%nat.
Proof.
  intros Hn. destruct (Z.lt_ge_cases n 10) as [Hs|Hb].
  - rewrite digits_small by lia. simpl. lia.
  - rewrite digits_step by lia. rewrite length_app. simpl. lia.
Qed.

(** Steps 11.b-11.c of [toFixed] with two fraction digits. *)
Lemma fixed2_split (n : Z) :
  0 <= n ->
  (let m := digits n in
   let k := String.length m in
   let m := if (k <=? 2)%nat then (zeros (2 + 1 - k) ++ m)%string else m in
   let k := String.length m in
   (substring 0 (k - 2) m ++ "." ++ substring (k - 2) 2 m)%string)
  = (digits (n / 100) ++ "."
     ++ String (digit (n / 10 mod 10)) (String (digit (n mod 10)) ""))%string.
Proof.
  intros Hn. cbv zeta.
  destruct (Z.lt_ge_cases n 10) as [H10|H10].
  { rewrite (digits_small n) by lia.
    rewrite (Z.div_small n 100), (Z.div_small n 10), (Z.mod_small n 10) by lia.
    reflexivity. }
  rewrite (digits_step n) by lia.
  destruct (Z.lt_ge_cases n 100) as [H100|H100].
  { assert (0 <= n / 10 < 10).
    { split; [apply Z.div_pos; lia|apply Z.div_lt_upper_bound; lia]. }
    rewrite (digits_small (n / 10)) by lia.
    rewrite (Z.div_small n 100), (Z.mod_small (n / 10) 10) by lia.
    reflexivity. }
  assert (H1 : 10 <= n / 10) by (apply Z.div_le_lower_bound; lia).
  rewrite (digits_step (n / 10)) by lia.
  rewrite Z.div_div by lia. change (10 * 10) with 100.
  rewrite app_assoc_string. cbn [append].
  set (hi := digits (n / 100)).
  set (lo := String (digit (n / 10 mod 10)) (String (digit (n mod 10)) "")).
  assert (Hhi : (1 <= String.length hi)%nat).
  { apply digits_nonempty. apply Z.div_pos; lia. }
  assert (Hlen : String.length (hi ++ lo) = (String.length hi + 2)%nat).
  { rewrite length_app. reflexivity. }
  rewrite Hlen.
  destruct (Nat.leb_spec (String.length hi + 2) 2); [lia|].
  rewrite Hlen.
  replace (String.length hi + 2 - 2)%nat with (String.length hi) by lia.
  rewrite substring_app_l.
  change 2%nat with (String.length lo) at 1.
  now rewrite substring_app_r.
Qed.

End Digits.

Section Formatting.

Lemma hundredths_nonneg (p : Q) : 0 <= hundredths p.
Proof.
  unfold hundredths. change 0 with (Qfloor 0). apply Qfloor_resp_le.
  pose proof (Qabs_nonneg p). lra.
Qed.


Lemma toFixed_two_decimals (p : Q) :
  (Qabs p < inject_Z (10 ^ 21))%Q ->
  Js.toFixed (Js.Fin p) 2
  = Js.Return ((if Qlt_le_dec p 0 then "-" else "") ++ two_decimals p)%string.
Proof.
  intros Hp. unfold Js.toFixed.
  change ((2 <? 0) || (100 <? 2)) with false. cbv iota.
  destruct (Qle_bool (inject_Z (10 ^ 21)) (Qabs p)) eqn:E.
  { apply Qle_bool_iff in E. exfalso. exact (Qlt_not_le _ _ Hp E). }
  change (Z.to_nat 2) with 2%nat. change (2 =? 0)%nat with false. cbv iota.
  change (Js.nearest_scaled (Qabs p) 2) with (hundredths p).
  f_equal. f_equal. apply (fixed2_split (hundredths p)), hundredths_nonneg.
Qed.

Lemma toFixed_2_returns (x : Js.number) : exists s, Js.toFixed x 2 = Js.Return s.
Proof.
  unfold Js.toFixed. change ((2 <? 0) || (100 <? 2)) with false. cbv iota.
  destruct x as [q| | |]; eauto.
  destruct (Qle_bool _ _); eauto.
Qed.

Lemma strict_eq_zero (r : Q) : Js.strict_eq (Js.Fin r) (Js.Fin 0) = Qeq_bool r 0.
Proof.
  unfold Js.strict_eq, Js.compare.
  destruct (Qeq_bool r 0) eqn:E.
  - apply Qeq_bool_iff in E. apply Qeq_alt in E. now rewrite E.
  - destruct (r ?= 0)%Q eqn:C; try reflexivity.
    apply Qeq_alt, Qeq_bool_iff in C. congruence.
Qed.

Lemma gt_zero (p : Q) :
  Js.gt (Js.Fin p) (Js.Fin 0) = if Qlt_le_dec 0 p then true else false.
Proof.
  unfold Js.gt, Js.compare. destruct (Qlt_le_dec 0 p) as [H|H].
  - apply Qgt_alt in H. now rewrite H.
  - destruct (p ?= 0)%Q eqn:C; try reflexivity.
    exfalso. exact (proj1 (Qle_alt p 0) H C).
Qed.

Lemma ge_zero (p : Q) :
  Js.ge (Js.Fin p) (Js.Fin 0) = if Qlt_le_dec p 0 then false else true.
Proof.
  destruct (Qlt_le_dec p 0) as [H|H].
  - destruct (Js.ge (Js.Fin p) (Js.Fin 0)) eqn:E; [|reflexivity].
    apply ge_Fin in E. exfalso. exact (Qlt_not_le _ _ H E).
  - now apply ge_Fin.
Qed.

(** The percentage both functions compute on a finite observed value and
    a finite non-zero reference. *)
Lemma computed_percent (y r : Q) :
  Qeq_bool r 0 = false ->
  Js.mul (Js.div (Js.sub (Js.Fin y) (Js.Fin r)) (Js.Fin r)) (Js.Fin 100) = Js.Fin (percent y r).
Proof. intros H. unfold Js.sub, Js.neg, Js.add, Js.div. rewrite H. reflexivity. Qed.

Lemma pct_finite (y r : Q) :
  Qeq_bool r 0 = false ->
  BokehCursorDeltas.pct (Js.Fin y) (Js.Num (Js.Fin r))
  = (let* fixed := Js.toFixed (Js.Fin (percent y r)) 2 in
     Js.Return ((if Qlt_le_dec 0 (percent y r) then "+" else "")
             ++ fixed ++ "%")%string).
Proof.
  intros H. unfold BokehCursorDeltas.pct.
  rewrite strict_eq_zero, H, (computed_percent y r H), gt_zero.
  cbn [Js.isFinite negb orb]. now destruct (Qlt_le_dec 0 (percent y r)).
Qed.

Lemma pctDelta_finite (y r : Q) :
  Qeq_bool r 0 = false ->
  CursorDeltaAddon.pctDelta (Js.Fin y) (Js.Num (Js.Fin r))
  = (let* fixed := Js.toFixed (Js.Fin (percent y r)) 2 in
     Js.Return ((if Qlt_le_dec (percent y r) 0 then "" else "+")
             ++ fixed ++ "%")%string).
Proof.
  intros H. unfold CursorDeltaAddon.pctDelta.
  rewrite strict_eq_zero, H, (computed_percent y r H), ge_zero.
  cbn [Js.isFinite negb orb]. now destruct (Qlt_le_dec (percent y r) 0).
Qed.

End Formatting.

Section Shape.








End Shape.

(* ================================================================== *)
(** ** The delta                                                       *)
(* ================================================================== *)





(** C3 at the input where the two functions part: observed and reference
    both 100, a percentage of exactly zero.  [pctDelta] writes the plus
    sign, [pct] writes no sign at all. *)
Theorem pct_zero_has_no_sign :
  (percent 100 100 == 0)%Q /\
  BokehCursorDeltas.pct (Js.Fin 100) (Js.Num (Js.Fin 100))
  = Js.Return "0.00%"%string /\
  CursorDeltaAddon.pctDelta (Js.Fin 100) (Js.Num (Js.Fin 100))
  = Js.Return "+0.00%"%string.
Proof. repeat split; vm_compute; reflexivity. Qed.

(** C4.  When the reference is [null], not finite, or zero, both functions
    return the dash; and on every input, of any kind, both return normally
    (the only exception [toFixed] can throw is for a digit count outside
    0..100, and the count is 2). *)
Theorem degenerate_reference_unavailable (y : Js.number) (yref : Js.value) :
  (degenerate_reference yref = true ->
   BokehCursorDeltas.pct y yref = Js.Return em_dash /\
   CursorDeltaAddon.pctDelta y yref = Js.Return em_dash) /\
  (exists s, BokehCursorDeltas.pct y yref = Js.Return s) /\
  (exists s, CursorDeltaAddon.pctDelta y yref = Js.Return s).
Proof.
  unfold BokehCursorDeltas.pct, CursorDeltaAddon.pctDelta.
  destruct yref as [|[q| | |]]; cbn [degenerate_reference Js.isFinite negb orb];
    try (split; [intros _; split; reflexivity|split; eexists; reflexivity]).
  rewrite strict_eq_zero. destruct (Qeq_bool q 0).
  - split; [intros _; split; reflexivity|split; eexists; reflexivity].
  - split; [discriminate|].
    destruct (toFixed_2_returns
                (Js.mul (Js.div (Js.sub y (Js.Fin q)) (Js.Fin q)) (Js.Fin 100)))
      as [s ->].
    cbn [Js.bind]. split; eexists; reflexivity.
Qed.

Lemma degenerate_reference_unavailable_witness :
  BokehCursorDeltas.pct (Js.Fin 52) (Js.Num Js.NaN) = Js.Return em_dash /\
  CursorDeltaAddon.pctDelta (Js.Fin 52) (Js.Num Js.NaN) = Js.Return em_dash.
Proof.
  apply (proj1 (degenerate_reference_unavailable (Js.Fin 52) (Js.Num Js.NaN))).
  reflexivity.
Defined.

(* ================================================================== *)
(** ** The callback                                                    *)
(* ================================================================== *)



(* ================================================================== *)
(** ** [toFixed] on a few values                                        *)
(* ================================================================== *)

Example toFixed_negative_small :
  Js.toFixed (Js.Fin (-1 # 1000)) 2 = Js.Return "-0.00"%string.
Proof. vm_compute. reflexivity. Qed.

Example toFixed_tie_rounds_up :
  Js.toFixed (Js.Fin (5 # 1000)) 2 = Js.Return "0.01"%string.
Proof. vm_compute. reflexivity. Qed.

Example toFixed_no_fraction :
  Js.toFixed (Js.Fin (7 # 2)) 0 = Js.Return "4"%string.
Proof. vm_compute. reflexivity. Qed.

Example toFixed_exponent :
  Js.toFixed (Js.Fin (inject_Z (12 * 10 ^ 21))) 2 = Js.Return "1.2e+22"%string.
Proof. vm_compute. reflexivity. Qed.

Example toFixed_not_a_number :
  Js.toFixed Js.NaN 2 = Js.Return "NaN"%string.
Proof. reflexivity. Qed.

Example toFixed_range_error :
  Js.toFixed (Js.Fin 1) 101 = Js.Throw Js.RangeError.
Proof. reflexivity. Qed.

(* ================================================================== *)
(** ** Further properties of the compilers                             *)
(* ================================================================== *)

Lemma same_ms_close (a c : Z) : a / 10 ^ 6 = c / 10 ^ 6 -> Z.abs (a - c) < 10 ^ 6.
Proof.
  intros H.
  pose proof (Z.div_mod a (10 ^ 6) ltac:(lia)) as Ha.
  pose proof (Z.div_mod c (10 ^ 6) ltac:(lia)) as Hc.
  pose proof (Z.mod_pos_bound a (10 ^ 6) ltac:(lia)).
  pose proof (Z.mod_pos_bound c (10 ^ 6) ltac:(lia)).
  rewrite H in Ha. lia.
Qed.

(** X1.  A segment whose anchors are a millisecond or more apart is never
    dropped: its line is in what [_mk_src] returns and in the list of its
    kind that [plot_with_prev_deltas] builds.  A segment that is dropped
    has anchors less than a millisecond apart. *)
Theorem millisecond_apart_kept (segs : list (string * Segment))
    (ks : string * Segment) :
  In ks segs ->
  (10 ^ 6 <= Z.abs (timestamp (anchor_end (snd ks))
                    - timestamp (anchor_start (snd ks))) ->
   (exists rows,
       CursorDeltaAddon._mk_src (map record_of (map snd segs))
       = Py.Ok (columns rows) /\ In (compiled (snd ks)) rows) /\
   (exists res sup,
       BokehCursorDeltas.build_lines (map trendline_of segs) [] []
       = Py.Ok (res, sup) /\
       In (compiled (snd ks)) (if is_res ks then res else sup))) /\
  (degenerate (snd ks) = true ->
   Z.abs (timestamp (anchor_end (snd ks))
          - timestamp (anchor_start (snd ks))) < 10 ^ 6).
Proof.
  intros Hin. split.
  - intros Hspan.
    assert (Hk : degenerate (snd ks) = false).
    { unfold degenerate, time_ms. apply Z.eqb_neq. intros E.
      apply same_ms_close in E. lia. }
    split.
    + eexists. split; [apply mk_src_typed|].
      apply in_map, filter_In. split; [now apply in_map|].
      unfold kept. now rewrite Hk.
    + eexists _, _. split; [apply build_lines_typed|]. cbn [app].
      destruct (is_res ks) eqn:Eres;
        apply (in_map (fun ks => compiled (snd ks))), filter_In;
        (split; [exact Hin|]); unfold kept; now rewrite Hk, Eres.
  - unfold degenerate, time_ms. intros E. apply Z.eqb_eq in E.
    now apply same_ms_close.
Qed.

Lemma millisecond_apart_kept_witness :
  exists rows,
    CursorDeltaAddon._mk_src
      (map record_of [sample_degenerate; sample_reversed])
    = Py.Ok (columns rows) /\ In (compiled sample_reversed) rows.
Proof.
  apply (proj1 (millisecond_apart_kept
                  [("sup"%string, sample_degenerate); ("res"%string, sample_reversed)]
                  ("res"%string, sample_reversed)
                  (or_intror (or_introl eq_refl)))).
  vm_compute. discriminate.
Defined.

Lemma columns_aligned (ls : list line) : aligned (columns ls).
Proof. unfold aligned, columns; cbn. rewrite !length_map. tauto. Qed.

(** X2.  Every source either compiler returns has its nine columns of one
    length, so the browser-side loops, which run over the length of
    [x_end], never read past the end of [m] or [b]. *)
Theorem compiled_sources_aligned :
  (forall tls res sup,
      BokehCursorDeltas.plot_with_prev_deltas tls = Py.Ok (res, sup) ->
      aligned res /\ aligned sup) /\
  (forall records src,
      CursorDeltaAddon._mk_src records = Py.Ok src -> aligned src) /\
  (forall rs ss res sup,
      CursorDeltaAddon.build_sources rs ss = Py.Ok (res, sup) ->
      aligned res /\ aligned sup).
Proof.
  assert (Hmk : forall records src,
             CursorDeltaAddon._mk_src records = Py.Ok src -> aligned src).
  { intros records src H. destruct (mk_src_ok records src H) as (ls & -> & _).
    apply columns_aligned. }
  split; [|split; [exact Hmk|]].
  - intros tls res sup. unfold BokehCursorDeltas.plot_with_prev_deltas.
    destruct (BokehCursorDeltas.build_lines tls [] []) as [[lr lsup]|e];
      cbn [Py.bind fst snd]; [|discriminate].
    intros [= <- <-]. rewrite !mk_source_columns.
    split; apply columns_aligned.
  - intros rs ss res sup. unfold CursorDeltaAddon.build_sources.
    destruct (CursorDeltaAddon._mk_src rs) as [r|e] eqn:Er;
      cbn [Py.bind]; [|discriminate].
    destruct (CursorDeltaAddon._mk_src ss) as [s0|e] eqn:Es;
      cbn [Py.bind]; [|discriminate].
    intros [= <- <-]. split; eauto.
Qed.

Lemma compiled_sources_aligned_witness :
  aligned (columns (map compiled [sample_res; sample_reversed])).
Proof.
  apply (proj1 (proj2 compiled_sources_aligned)
               (map record_of [sample_res; sample_degenerate; sample_reversed])).
  reflexivity.
Defined.

Lemma plot_typed (segs : list (string * Segment)) :
  BokehCursorDeltas.plot_with_prev_deltas (map trendline_of segs)
  = Py.Ok
      (columns (map (fun ks => compiled (snd ks))
                    (filter (fun ks => kept (snd ks) && is_res ks) segs)),
       columns (map (fun ks => compiled (snd ks))
                    (filter (fun ks => kept (snd ks) && negb (is_res ks)) segs))).
Proof.
  unfold BokehCursorDeltas.plot_with_prev_deltas.
  rewrite build_lines_typed. cbn [Py.bind fst snd app].
  now rewrite !mk_source_columns.
Qed.

(** X3.  On segments with numeric anchors [plot_with_prev_deltas] keeps the
    input order within each category, and files under support every kept
    segment whose kind is not exactly the string "res". *)
Theorem plot_sources_in_input_order (segs : list (string * Segment)) :
  BokehCursorDeltas.plot_with_prev_deltas (map trendline_of segs)
  = Py.Ok
      (columns (map (fun ks => compiled (snd ks))
                    (filter (fun ks => kept (snd ks) && is_res ks) segs)),
       columns (map (fun ks => compiled (snd ks))
                    (filter (fun ks => kept (snd ks) && negb (is_res ks)) segs))).
Proof. exact (plot_typed segs). Qed.

(** X4.  [build_sources] returns exactly when neither of its two lists has a
    record with a conversion that raises; the resistance list is compiled
    first, so an error there is the one that surfaces. *)
Theorem build_sources_returns_iff_convertible
    (rs ss : list CursorDeltaAddon.record) :
  ((exists srcs, CursorDeltaAddon.build_sources rs ss = Py.Ok srcs) <->
   existsb aborting rs = false /\ existsb aborting ss = false) /\
  (forall e, CursorDeltaAddon._mk_src rs = Py.Raise e ->
             CursorDeltaAddon.build_sources rs ss = Py.Raise e).
Proof.
  assert (Hmk : forall records,
             (exists src, CursorDeltaAddon._mk_src records = Py.Ok src) <->
             existsb aborting records = false).
  { intros records. split.
    - intros [src H]. destruct (existsb aborting records) eqn:E; [|reflexivity].
      unfold CursorDeltaAddon._mk_src in H.
      destruct records as [|r records]; [discriminate E|].
      destruct (fill_raises (r :: records) empty_source E) as [e He].
      congruence.
    - intros E. unfold CursorDeltaAddon._mk_src.
      destruct records as [|r records]; [eauto|]. now apply fill_returns. }
  unfold CursorDeltaAddon.build_sources. split.
  - rewrite <- !Hmk. split.
    + intros [srcs H].
      destruct (CursorDeltaAddon._mk_src rs) as [r|e]; cbn [Py.bind] in H;
        [|discriminate].
      destruct (CursorDeltaAddon._mk_src ss) as [s0|e]; cbn [Py.bind] in H;
        [|discriminate].
      split; eauto.
    + intros [[r ->] [s0 ->]]. cbn [Py.bind]. eauto.
  - intros e ->. reflexivity.
Qed.

Lemma build_sources_returns_iff_convertible_witness :
  CursorDeltaAddon.build_sources [sample_bad_record] [record_of sample_sup]
  = Py.Raise Py.FloatConversionError.
Proof.
  apply (proj2 (build_sources_returns_iff_convertible
                  [sample_bad_record] [record_of sample_sup])).
  reflexivity.
Defined.

(** One record through [_mk_src], in binary64. *)
Lemma mk_src64_single (n0 n1 : Z) (p0 p1 : Binary64.number) :
  n1 / 10 ^ 6 <> n0 / 10 ^ 6 ->
  let slope := Binary64.div (Binary64.sub p1 p0)
                            (Binary64.of_int (n1 / 10 ^ 6 - n0 / 10 ^ 6)) in
  CursorDeltaAddon64._mk_src
    [(Py.Timestamp n0, Binary64.Float p0, Py.Timestamp n1, Binary64.Float p1)]
  = Py.Ok (Binary64.columns
             [{| Binary64.x0 := n0; Binary64.y0 := p0;
                 Binary64.x1 := n1; Binary64.y1 := p1;
                 Binary64.x0ms := n0 / 10 ^ 6; Binary64.x1ms := n1 / 10 ^ 6;
                 Binary64.m := slope;
                 Binary64.b :=
                   Binary64.sub p0 (Binary64.mul slope
                                      (Binary64.of_int (n0 / 10 ^ 6)));
                 Binary64.x_end := Z.max (n0 / 10 ^ 6) (n1 / 10 ^ 6) |}]).
Proof.
  intros Hne slope. unfold CursorDeltaAddon64._mk_src. py_step64.
  destruct (Z.eqb_spec (n1 / 10 ^ 6) (n0 / 10 ^ 6)) as [E|_]; [contradiction|].
  reflexivity.
Qed.



(* ================================================================== *)
(** ** Further properties of the selection and of the callback         *)
(* ================================================================== *)

Lemma fold_left_invariant {A B : Type} (f : A -> B -> A) (P : A -> Prop) :
  (forall a b', P a -> P (f a b')) ->
  forall l a, P a -> P (fold_left f l a).
Proof.
  intros Hstep l. induction l as [|h l IH]; intros a Ha; cbn [fold_left];
    [exact Ha|]. apply IH, Hstep, Ha.
Qed.

Lemma nonfinite_projection (a x c : Js.number) :
  Js.isFinite x = false -> Js.isFinite (Js.add (Js.mul a x) c) = false.
Proof.
  destruct x as [q| | |]; [discriminate| | |]; intros _;
    destruct a as [qa| | |], c as [qc| | |]; cbn;
    try (unfold Js.scale_inf; destruct (_ ?= _)%Q); reflexivity.
Qed.

Lemma index_x_end (src : ColumnDataSource) (i : nat) :
  (exists z, Js.index (data_x_end src) i = Js.of_int z)
  \/ Js.index (data_x_end src) i = Js.NaN.
Proof.
  unfold Js.index, data_x_end.
  destruct (nth_in_or_default i (map Js.of_int (col_x_end src)) Js.NaN) as [H|H];
    [|now right].
  apply in_map_iff in H. destruct H as (z & <- & _). left. eauto.
Qed.

Lemma prevY_nonfinite (src : ColumnDataSource) (x : Js.number) :
  Js.isFinite x = false ->
  BokehCursorDeltas.prevY src x = Js.Null \/
  exists v, BokehCursorDeltas.prevY src x = Js.Num v /\ Js.isFinite v = false.
Proof.
  intros Hx. unfold BokehCursorDeltas.prevY.
  apply (fold_left_invariant (BokehCursorDeltas.prevY_step src x)
           (fun st => snd st = Js.Null \/
                      exists v, snd st = Js.Num v /\ Js.isFinite v = false)).
  - intros st i Hst. unfold BokehCursorDeltas.prevY_step.
    destruct (_ && _); [|exact Hst].
    right. eexists. split; [reflexivity|]. now apply nonfinite_projection.
  - now left.
Qed.

Lemma prevY_never_matches (src : ColumnDataSource) (x : Js.number) :
  x = Js.NaN \/ x = Js.NegInf -> BokehCursorDeltas.prevY src x = Js.Null.
Proof.
  intros Hx. unfold BokehCursorDeltas.prevY.
  apply (fold_left_invariant (BokehCursorDeltas.prevY_step src x)
           (fun st => snd st = Js.Null)); [|reflexivity].
  intros st i Hst. unfold BokehCursorDeltas.prevY_step.
  assert (Js.ge x (Js.index (data_x_end src) i) = false) as ->; [|exact Hst].
  destruct (index_x_end src i) as [[z ->]| ->], Hx as [-> | ->]; reflexivity.
Qed.

Lemma pct_unavailable (y : Js.number) (yref : Js.value) :
  yref = Js.Null \/ (exists v, yref = Js.Num v /\ Js.isFinite v = false) ->
  BokehCursorDeltas.pct y yref = Js.Return em_dash.
Proof.
  intros [->|(v & -> & Hv)]; [reflexivity|].
  unfold BokehCursorDeltas.pct. now rewrite Hv.
Qed.

Lemma pct_returns (y : Js.number) (yref : Js.value) :
  exists s, BokehCursorDeltas.pct y yref = Js.Return s.
Proof.
  unfold BokehCursorDeltas.pct. destruct yref as [|v]; [eauto|].
  destruct (_ || _); [eauto|].
  destruct (toFixed_2_returns
              (Js.mul (Js.div (Js.sub y v) v) (Js.Fin 100))) as [s ->].
  cbn [Js.bind]. eauto.
Qed.

(** X6.  A cursor position that is not a finite number never yields a
    delta: the callback of [plot_with_prev_deltas] shows the dash for both
    categories, whatever the sources and the observed value; for [NaN] and
    [-Infinity] because [prevY] matches no line, for [+Infinity] because the
    projection it computes is not finite. *)
Theorem nonfinite_cursor_shows_dashes (res sup : ColumnDataSource)
    (x y : Js.number) :
  Js.isFinite x = false ->
  BokehCursorDeltas.callback res sup x y = Js.Return both_unavailable /\
  (x <> Js.PosInf -> BokehCursorDeltas.prevY res x = Js.Null).
Proof.
  intros Hx. split.
  - unfold BokehCursorDeltas.callback.
    rewrite (pct_unavailable y _ (prevY_nonfinite res x Hx)).
    rewrite (pct_unavailable y _ (prevY_nonfinite sup x Hx)).
    reflexivity.
  - intros Hne. apply prevY_never_matches.
    destruct x; try discriminate; tauto.
Qed.

Lemma nonfinite_cursor_shows_dashes_witness :
  BokehCursorDeltas.callback (columns [compiled sample_res])
    (columns [compiled sample_sup]) Js.PosInf (Js.Fin 52)
  = Js.Return both_unavailable.
Proof.
  apply (proj1 (nonfinite_cursor_shows_dashes
                  (columns [compiled sample_res]) (columns [compiled sample_sup])
                  Js.PosInf (Js.Fin 52) eq_refl)).
Defined.

(** X7.  The callback of [plot_with_prev_deltas] never throws: for every
    pair of sources and every cursor position it returns the two results of
    [pct], for the resistance and for the support, laid out in its fixed
    text. *)
Theorem callback_always_shows (res sup : ColumnDataSource) (x y : Js.number) :
  exists pRes pSup,
    BokehCursorDeltas.pct y (BokehCursorDeltas.prevY res x) = Js.Return pRes /\
    BokehCursorDeltas.pct y (BokehCursorDeltas.prevY sup x) = Js.Return pSup /\
    BokehCursorDeltas.callback res sup x y
    = Js.Return ("<b>Δ vs prev RES:</b> " ++ pRes
                 ++ " &nbsp; | &nbsp; <b>Δ vs prev SUP:</b> " ++ pSup)%string.
Proof.
  destruct (pct_returns y (BokehCursorDeltas.prevY res x)) as [a Ha].
  destruct (pct_returns y (BokehCursorDeltas.prevY sup x)) as [c Hc].
  exists a, c. split; [exact Ha|]. split; [exact Hc|].
  unfold BokehCursorDeltas.callback. now rewrite Ha, Hc.
Qed.

(** X8.  Before the first resistance line has ended the callback shows the
    dash for the resistance (and likewise for the support); with no trend
    line at all, [plot_with_prev_deltas] returns two empty sources and the
    callback shows both dashes at every cursor position. *)
Theorem dash_before_first_line (lres lsup : list line) (t : Q) (y : Js.number) :
  ((forall r, In r lres -> (t < inject_Z (x_end r))%Q) ->
   exists pSup,
     BokehCursorDeltas.callback (BokehCursorDeltas._mk_source lres)
       (BokehCursorDeltas._mk_source lsup) (Js.Fin t) y
     = Js.Return ("<b>Δ vs prev RES:</b> " ++ em_dash
                  ++ " &nbsp; | &nbsp; <b>Δ vs prev SUP:</b> " ++ pSup)%string) /\
  ((forall r, In r lsup -> (t < inject_Z (x_end r))%Q) ->
   exists pRes,
     BokehCursorDeltas.callback (BokehCursorDeltas._mk_source lres)
       (BokehCursorDeltas._mk_source lsup) (Js.Fin t) y
     = Js.Return ("<b>Δ vs prev RES:</b> " ++ pRes
                  ++ " &nbsp; | &nbsp; <b>Δ vs prev SUP:</b> " ++ em_dash)%string) /\
  BokehCursorDeltas.plot_with_prev_deltas [] = Py.Ok (empty_source, empty_source) /\
  BokehCursorDeltas.callback empty_source empty_source (Js.Fin t) y
  = Js.Return both_unavailable.
Proof.
  assert (Hnull : forall ls,
             (forall r, In r ls -> (t < inject_Z (x_end r))%Q) ->
             BokehCursorDeltas.prevY (BokehCursorDeltas._mk_source ls) (Js.Fin t)
             = Js.Null).
  { intros ls Hls. rewrite mk_source_columns.
    destruct (prevY_columns ls t) as [[H _]|(i & r & (Hi & Hle & _) & _)];
      [exact H|].
    exfalso. apply (Qlt_not_le _ _ (Hls r (nth_error_In _ _ Hi)) Hle). }
  split; [|split; [|split; reflexivity]].
  - intros H. unfold BokehCursorDeltas.callback. rewrite (Hnull lres H).
    destruct (pct_returns y (BokehCursorDeltas.prevY
                               (BokehCursorDeltas._mk_source lsup) (Js.Fin t)))
      as [c ->].
    exists c. reflexivity.
  - intros H. unfold BokehCursorDeltas.callback. rewrite (Hnull lsup H).
    destruct (pct_returns y (BokehCursorDeltas.prevY
                               (BokehCursorDeltas._mk_source lres) (Js.Fin t)))
      as [a ->].
    exists a. reflexivity.
Qed.

Lemma dash_before_first_line_witness :
  exists pSup,
    BokehCursorDeltas.callback
      (BokehCursorDeltas._mk_source [compiled sample_res])
      (BokehCursorDeltas._mk_source [compiled sample_sup])
      (Js.Fin 95) (Js.Fin 52)
    = Js.Return ("<b>Δ vs prev RES:</b> " ++ em_dash
                 ++ " &nbsp; | &nbsp; <b>Δ vs prev SUP:</b> " ++ pSup)%string.
Proof.
  apply (proj1 (dash_before_first_line [compiled sample_res]
                  [compiled sample_sup] 95 (Js.Fin 52))).
  intros r [<-|[]]. vm_compute. reflexivity.
Defined.

(** X9.  Moving the cursor to the right never loses the reference and never
    goes back to a line that ended earlier: if [prevY] finds a line at [t]
    it finds one at every later [t'], and the line used at [t'] ends no
    earlier than the line used at [t]. *)
Theorem reference_never_goes_back (ls : list line) (t t' : Q) :
  (t <= t')%Q ->
  (BokehCursorDeltas.prevY (BokehCursorDeltas._mk_source ls) (Js.Fin t) <> Js.Null ->
   BokehCursorDeltas.prevY (BokehCursorDeltas._mk_source ls) (Js.Fin t') <> Js.Null) /\
  (forall i r i' r',
      most_recent_at ls t i r -> most_recent_at ls t' i' r' ->
      x_end r <= x_end r').
Proof.
  intros Htt. split.
  - rewrite !mk_source_columns. intros Hfound.
    destruct (prevY_columns ls t) as [[H _]|(i & r & (Hi & Hle & _) & _)];
      [contradiction|].
    destruct (prevY_columns ls t') as [[_ Hnone]|(i' & r' & _ & ->)];
      [|discriminate].
    exfalso. apply (Qlt_not_le _ _ (Hnone r (nth_error_In _ _ Hi))).
    now apply Qle_trans with t.
  - intros i r i' r' (Hi & Hle & _) (_ & _ & Hmax & _).
    apply (Hmax i r Hi). now apply Qle_trans with t.
Qed.

Lemma reference_never_goes_back_witness :
  BokehCursorDeltas.prevY
    (BokehCursorDeltas._mk_source (map compiled [sample_sup; sample_res]))
    (Js.Fin 1000) <> Js.Null.
Proof.
  apply (proj1 (reference_never_goes_back
                  (map compiled [sample_sup; sample_res]) 92 1000
                  ltac:(vm_compute; discriminate))).
  vm_compute. discriminate.
Defined.

(** X10.  From the records given to [_mk_src] to the value [yPrevAtDate]
    returns, ties go to the record listed first: a non-degenerate segment
    that ended by [t], with no kept segment ending later by [t] and no kept
    segment with the same end listed before it, is the one projected. *)
Theorem first_listed_wins (before after : list Segment) (s : Segment) (t : Q) :
  degenerate s = false ->
  (inject_Z (end_ms s) <= t)%Q ->
  (forall s', In s' (before ++ after) -> degenerate s' = false ->
              (inject_Z (end_ms s') <= t)%Q -> end_ms s' <= end_ms s) ->
  (forall s', In s' before -> degenerate s' = false -> end_ms s' <> end_ms s) ->
  exists src,
    CursorDeltaAddon._mk_src (map record_of (before ++ s :: after)) = Py.Ok src /\
    CursorDeltaAddon.yPrevAtDate src (Js.Fin t)
    = Js.Num (Js.Fin (project (compiled s) t)).
Proof.
  intros Hs Hle Hmax Hfirst.
  eexists. split; [apply mk_src_typed|].
  rewrite filter_app, map_app. cbn [filter]. unfold kept at 2. rewrite Hs.
  cbn [negb map].
  set (pre := map compiled (filter kept before)).
  set (post := map compiled (filter kept after)).
  assert (Hfrom : forall l r', In r' (map compiled (filter kept l)) ->
            exists s', In s' l /\ degenerate s' = false /\ r' = compiled s').
  { intros l r' H. apply in_map_iff in H. destruct H as (s' & <- & H).
    apply filter_In in H. destruct H as [Hin Hk]. exists s'.
    unfold kept in Hk. destruct (degenerate s'); [discriminate|tauto]. }
  rewrite yPrevAtDate_is_prevY, <- mk_source_columns.
  apply (prevY_of_most_recent _ t (length pre) (compiled s)).
  split; [|split; [exact Hle|split]].
  - rewrite nth_error_app2, Nat.sub_diag by lia. reflexivity.
  - intros j r' Hj Hq. apply nth_error_In in Hj.
    apply in_app_or in Hj. destruct Hj as [Hj|[<-|Hj]]; [|lia|].
    + destruct (Hfrom before r' Hj) as (s' & Hin & Hk & ->).
      apply (Hmax s'); auto. apply in_or_app. now left.
    + destruct (Hfrom after r' Hj) as (s' & Hin & Hk & ->).
      apply (Hmax s'); auto. apply in_or_app. now right.
  - intros j r' Hj Hr'. rewrite nth_error_app1 in Hr' by exact Hj.
    apply nth_error_In in Hr'.
    destruct (Hfrom before r' Hr') as (s' & Hin & Hk & ->).
    now apply (Hfirst s').
Qed.

Lemma first_listed_wins_witness :
  exists src,
    CursorDeltaAddon._mk_src
      (map record_of [sample_degenerate; sample_tie_b; sample_tie_a]) = Py.Ok src /\
    CursorDeltaAddon.yPrevAtDate src (Js.Fin 120)
    = Js.Num (Js.Fin (project (compiled sample_tie_b) 120)).
Proof.
  apply (first_listed_wins [sample_degenerate] [sample_tie_a] sample_tie_b 120).
  - reflexivity.
  - vm_compute. discriminate.
  - intros s' [<-|[<-|[]]]; [discriminate|]. intros _ _. vm_compute. discriminate.
  - intros s' [<-|[]]. discriminate.
Defined.

(* ================================================================== *)
(** ** Further properties of the delta                                 *)
(* ================================================================== *)

Lemma percent_zero_iff (y r : Q) :
  ~ (r == 0)%Q -> ((percent y r == 0)%Q <-> (y == r)%Q).
Proof.
  intros Hr. unfold percent. split.
  - intros H.
    assert (E : (y - r == (y - r) / r * 100 * (r / 100))%Q) by (field; exact Hr).
    rewrite H in E. lra.
  - intros ->. field. exact Hr.
Qed.

Lemma toFixed_zero (p : Q) :
  (p == 0)%Q -> Js.toFixed (Js.Fin p) 2 = Js.Return "0.00"%string.
Proof.
  intros Hp. rewrite toFixed_two_decimals.
  - destruct (Qlt_le_dec p 0) as [Hneg|_].
    + exfalso. rewrite Hp in Hneg. exact (Qlt_irrefl 0 Hneg).
    + unfold two_decimals, hundredths. now rewrite Hp.
  - now rewrite Hp.
Qed.

Lemma compare_zero_eq (p : Js.number) :
  Js.compare p (Js.Fin 0) = Some Eq -> exists q, p = Js.Fin q /\ (q == 0)%Q.
Proof.
  destruct p as [q| | |]; cbn; try discriminate.
  intros [= H]. exists q. split; [reflexivity|now apply Qeq_alt].
Qed.

Lemma differ_only_at_zero (y : Js.number) (yref : Js.value) :
  BokehCursorDeltas.pct y yref = CursorDeltaAddon.pctDelta y yref \/
  (exists q r,
      y = Js.Fin q /\ yref = Js.Num (Js.Fin r) /\ ~ (r == 0)%Q /\ (q == r)%Q /\
      BokehCursorDeltas.pct y yref = Js.Return "0.00%"%string /\
      CursorDeltaAddon.pctDelta y yref = Js.Return "+0.00%"%string).
Proof.
  unfold BokehCursorDeltas.pct, CursorDeltaAddon.pctDelta.
  destruct yref as [|v]; [now left|].
  destruct (negb (Js.isFinite v) || Js.strict_eq v (Js.Fin 0)) eqn:G; [now left|].
  apply orb_false_elim in G. destruct G as [Gf Gz].
  destruct v as [r| | |]; try discriminate Gf.
  rewrite strict_eq_zero in Gz.
  set (p := Js.mul (Js.div (Js.sub y (Js.Fin r)) (Js.Fin r)) (Js.Fin 100)).
  unfold Js.gt, Js.ge.
  destruct (Js.compare p (Js.Fin 0)) as [[| |]|] eqn:C; try now left.
  right. destruct (compare_zero_eq p C) as (p0 & Hp & Hz).
  destruct y as [q| | |];
    try (exfalso; revert Hp; unfold p, Js.sub, Js.neg, Js.add, Js.div;
         rewrite ?Gz; cbn; try (unfold Js.scale_inf; destruct (_ ?= _)%Q);
         discriminate).
  assert (Hr : ~ (r == 0)%Q).
  { intros E. apply Qeq_bool_iff in E. congruence. }
  assert (Hperc : p0 = percent q r).
  { unfold p in Hp. rewrite (computed_percent q r Gz) in Hp. congruence. }
  exists q, r. split; [reflexivity|]. split; [reflexivity|]. split; [exact Hr|].
  split; [apply (percent_zero_iff q r Hr); now rewrite <- Hperc|].
  rewrite Hp, (toFixed_zero p0 Hz). split; reflexivity.
Qed.

(** Where the observed value equals the reference, in exact arithmetic. *)
Lemma differ_at_reference (q r : Q) :
  ~ (r == 0)%Q -> (q == r)%Q ->
  BokehCursorDeltas.pct (Js.Fin q) (Js.Num (Js.Fin r)) = Js.Return "0.00%"%string /\
  CursorDeltaAddon.pctDelta (Js.Fin q) (Js.Num (Js.Fin r))
  = Js.Return "+0.00%"%string.
Proof.
  intros Hr Hq.
  assert (Hz : Qeq_bool r 0 = false).
  { destruct (Qeq_bool r 0) eqn:E; [|reflexivity].
    apply Qeq_bool_iff in E. contradiction. }
  assert (Hp : (percent q r == 0)%Q) by now apply percent_zero_iff.
  rewrite (pct_finite q r Hz), (pctDelta_finite q r Hz), (toFixed_zero _ Hp).
  cbn [Js.bind].
  destruct (Qlt_le_dec 0 (percent q r)) as [H|_];
    [exfalso; rewrite Hp in H; exact (Qlt_irrefl 0 H)|].
  destruct (Qlt_le_dec (percent q r) 0) as [H|_];
    [exfalso; rewrite Hp in H; exact (Qlt_irrefl 0 H)|].
  split; reflexivity.
Qed.

(** Where the observed value is the reference, in binary64: the
    difference is +0, and so is the quotient up to its sign. *)
Lemma differ_at_reference64 (r : Binary64.number) :
  Binary64.is_nonzero r = true ->
  BokehCursorDeltas64.pct r (Some r) = Js.Return "0.00%"%string /\
  CursorDeltaAddon64.pctDelta r (Some r) = Js.Return "+0.00%"%string.
Proof.
  destruct r as [| | |s m e]; try discriminate. intros _.
  unfold BokehCursorDeltas64.pct, CursorDeltaAddon64.pctDelta.
  rewrite sub_diag. destruct s; split; vm_compute; reflexivity.
Qed.

Lemma differ_only_at_zero64 (y : Binary64.number) (yref : option Binary64.number) :
  BokehCursorDeltas64.pct y yref = CursorDeltaAddon64.pctDelta y yref \/
  (exists r,
      yref = Some r /\ Binary64.is_zero (percent64 y r) = true /\
      BokehCursorDeltas64.pct y yref = Js.Return "0.00%"%string /\
      CursorDeltaAddon64.pctDelta y yref = Js.Return "+0.00%"%string).
Proof.
  unfold BokehCursorDeltas64.pct, CursorDeltaAddon64.pctDelta.
  destruct yref as [r|]; [|now left].
  destruct (negb (Binary64.isFinite r) || Binary64.strict_eq r Binary64.zero);
    [now left|].
  fold (percent64 y r).
  destruct (percent64 y r) as [s|s| |s m e] eqn:E; try (destruct s; now left).
  - right. exists r. split; [reflexivity|]. split; [now rewrite E|].
    destruct s; split; vm_compute; reflexivity.
  - now left.
Qed.

(** X11.  The two delta functions return the same text on every input but
    one kind, a percentage of zero, where [pct] returns "0.00%" and
    [pctDelta] returns "+0.00%".  In exact arithmetic that is every finite
    observed value equal to a finite non-zero reference, and no other
    input.  In binary64 it is every observed value that is the finite
    non-zero reference itself, and the two results differ on no input
    whose computed percentage is not a zero. *)
Theorem implementations_differ_only_at_zero :
  (forall q r : Q,
      ~ (r == 0)%Q -> (q == r)%Q ->
      BokehCursorDeltas.pct (Js.Fin q) (Js.Num (Js.Fin r))
      = Js.Return "0.00%"%string /\
      CursorDeltaAddon.pctDelta (Js.Fin q) (Js.Num (Js.Fin r))
      = Js.Return "+0.00%"%string) /\
  (forall (y : Js.number) (yref : Js.value),
      BokehCursorDeltas.pct y yref = CursorDeltaAddon.pctDelta y yref \/
      (exists q r,
          y = Js.Fin q /\ yref = Js.Num (Js.Fin r) /\ ~ (r == 0)%Q /\ (q == r)%Q /\
          BokehCursorDeltas.pct y yref = Js.Return "0.00%"%string /\
          CursorDeltaAddon.pctDelta y yref = Js.Return "+0.00%"%string)) /\
  (forall r : Binary64.number,
      Binary64.is_nonzero r = true ->
      BokehCursorDeltas64.pct r (Some r) = Js.Return "0.00%"%string /\
      CursorDeltaAddon64.pctDelta r (Some r) = Js.Return "+0.00%"%string) /\
  (forall (y : Binary64.number) (yref : option Binary64.number),
      BokehCursorDeltas64.pct y yref = CursorDeltaAddon64.pctDelta y yref \/
      (exists r,
          yref = Some r /\ Binary64.is_zero (percent64 y r) = true /\
          BokehCursorDeltas64.pct y yref = Js.Return "0.00%"%string /\
          CursorDeltaAddon64.pctDelta y yref = Js.Return "+0.00%"%string)).
Proof.
  split; [exact differ_at_reference|].
  split; [exact differ_only_at_zero|].
  split; [exact differ_at_reference64|exact differ_only_at_zero64].
Qed.

Lemma implementations_differ_only_at_zero_witness :
  (BokehCursorDeltas.pct (Js.Fin (345 # 2)) (Js.Num (Js.Fin (690 # 4)))
   = Js.Return "0.00%"%string /\
   CursorDeltaAddon.pctDelta (Js.Fin (345 # 2)) (Js.Num (Js.Fin (690 # 4)))
   = Js.Return "+0.00%"%string) /\
  (BokehCursorDeltas64.pct (Binary64.decimal 17262 100)
     (Some (Binary64.decimal 17262 100))
   = Js.Return "0.00%"%string /\
   CursorDeltaAddon64.pctDelta (Binary64.decimal 17262 100)
     (Some (Binary64.decimal 17262 100))
   = Js.Return "+0.00%"%string).
Proof.
  split.
  - apply (proj1 implementations_differ_only_at_zero (345 # 2) (690 # 4))%Q.
    + vm_compute. discriminate.
    + vm_compute. reflexivity.
  - apply (proj1 (proj2 (proj2 implementations_differ_only_at_zero))
                 (Binary64.decimal 17262 100)).
    vm_compute. reflexivity.
Defined.

Lemma toFixed_sign (p : Q) :
  exists rest,
    Js.toFixed (Js.Fin p) 2
    = Js.Return ((if Qlt_le_dec p 0 then "-" else "") ++ rest)%string.
Proof.
  unfold Js.toFixed. change ((2 <? 0) || (100 <? 2)) with false. cbv iota.
  destruct (Qle_bool _ _); eauto.
Qed.

Lemma percent_sign_positive_reference (y r : Q) :
  (0 < r)%Q ->
  ((percent y r < 0)%Q <-> (y < r)%Q) /\ ((0 < percent y r)%Q <-> (r < y)%Q).
Proof.
  intros Hr. unfold percent.
  assert (Hk : (0 < / r * 100)%Q).
  { apply Qmult_lt_0_compat; [now apply Qinv_lt_0_compat|reflexivity]. }
  assert (E : ((y - r) / r * 100 == (y - r) * (/ r * 100))%Q)
    by (unfold Qdiv; ring).
  rewrite E. generalize dependent (/ r * 100)%Q. intros k Hk _.
  split; split; intros H; nra.
Qed.

Lemma percent_sign_negative_reference (y r : Q) :
  (r < 0)%Q ->
  ((percent y r < 0)%Q <-> (r < y)%Q) /\ ((0 < percent y r)%Q <-> (y < r)%Q).
Proof.
  intros Hr. unfold percent.
  assert (Hk : (0 < - (/ r) * 100)%Q).
  { apply Qmult_lt_0_compat; [|reflexivity].
    assert (H : (0 < / - r)%Q) by (apply Qinv_lt_0_compat; lra).
    assert (E : (/ - r == - / r)%Q) by (field; lra). now rewrite <- E. }
  assert (E : ((y - r) / r * 100 == (r - y) * (- / r * 100))%Q)
    by (unfold Qdiv; ring).
  rewrite E. generalize dependent (- / r * 100)%Q. intros k Hk _.
  split; split; intros H; nra.
Qed.

(** X12.  Which sign the delta carries.  Against a positive reference both
    functions write "+" first when the observed value is above it and "-"
    when it is below; against a negative reference it is the other way
    round: an observed value above the reference is written with "-". *)
Theorem sign_follows_reference (y r : Q) :
  ((0 < r)%Q ->
   ((r < y)%Q ->
    exists rest,
      BokehCursorDeltas.pct (Js.Fin y) (Js.Num (Js.Fin r))
      = Js.Return (String "+" rest) /\
      CursorDeltaAddon.pctDelta (Js.Fin y) (Js.Num (Js.Fin r))
      = Js.Return (String "+" rest)) /\
   ((y < r)%Q ->
    exists rest,
      BokehCursorDeltas.pct (Js.Fin y) (Js.Num (Js.Fin r))
      = Js.Return (String "-" rest) /\
      CursorDeltaAddon.pctDelta (Js.Fin y) (Js.Num (Js.Fin r))
      = Js.Return (String "-" rest))) /\
  ((r < 0)%Q ->
   ((r < y)%Q ->
    exists rest,
      BokehCursorDeltas.pct (Js.Fin y) (Js.Num (Js.Fin r))
      = Js.Return (String "-" rest) /\
      CursorDeltaAddon.pctDelta (Js.Fin y) (Js.Num (Js.Fin r))
      = Js.Return (String "-" rest)) /\
   ((y < r)%Q ->
    exists rest,
      BokehCursorDeltas.pct (Js.Fin y) (Js.Num (Js.Fin r))
      = Js.Return (String "+" rest) /\
      CursorDeltaAddon.pctDelta (Js.Fin y) (Js.Num (Js.Fin r))
      = Js.Return (String "+" rest))).
Proof.
  assert (Hshape : forall c : ascii,
    ~ (r == 0)%Q ->
    ((c = "+"%char /\ (0 < percent y r)%Q) \/
     (c = "-"%char /\ (percent y r < 0)%Q)) ->
    exists rest,
      BokehCursorDeltas.pct (Js.Fin y) (Js.Num (Js.Fin r))
      = Js.Return (String c rest) /\
      CursorDeltaAddon.pctDelta (Js.Fin y) (Js.Num (Js.Fin r))
      = Js.Return (String c rest)).
  { intros c Hr Hc.
    assert (Hz : Qeq_bool r 0 = false).
    { destruct (Qeq_bool r 0) eqn:E; [|reflexivity].
      apply Qeq_bool_iff in E. contradiction. }
    rewrite (pct_finite y r Hz), (pctDelta_finite y r Hz).
    destruct (toFixed_sign (percent y r)) as [rest ->]. cbn [Js.bind].
    exists (rest ++ "%")%string.
    destruct Hc as [[-> Hp]|[-> Hp]];
      destruct (Qlt_le_dec 0 (percent y r)) as [H1|H1],
               (Qlt_le_dec (percent y r) 0) as [H2|H2];
      try (split; reflexivity); exfalso; lra. }
  split; intros Hr.
  - destruct (percent_sign_positive_reference y r Hr) as [Hneg Hpos].
    split; intros H; apply Hshape; try lra; [left|right]; split; auto;
      [now apply Hpos|now apply Hneg].
  - destruct (percent_sign_negative_reference y r Hr) as [Hneg Hpos].
    split; intros H; apply Hshape; try lra; [right|left]; split; auto;
      [now apply Hneg|now apply Hpos].
Qed.

Lemma sign_follows_reference_witness :
  exists rest,
    CursorDeltaAddon.pctDelta (Js.Fin 5) (Js.Num (Js.Fin (-10)))
    = Js.Return (String "-" rest).
Proof.
  destruct (proj1 (proj2 (sign_follows_reference 5 (-10))
                     ltac:(vm_compute; reflexivity))
                  ltac:(vm_compute; reflexivity)) as (rest & _ & H).
  exists rest. exact H.
Defined.

(* ================================================================== *)
(** ** The callback of [attach_cursor_panel]                           *)
(* ================================================================== *)

Lemma Qfloor_unique (x : Q) (z : Z) :
  (inject_Z z <= x)%Q -> (x < inject_Z (z + 1))%Q -> Qfloor x = z.
Proof.
  intros Hlo Hhi.
  pose proof (Qfloor_le x) as Hf. pose proof (Qlt_floor x) as Hc.
  assert (Qfloor x < z + 1).
  { rewrite Zlt_Qlt. now apply Qle_lt_trans with x. }
  assert (z < Qfloor x + 1).
  { rewrite Zlt_Qlt. now apply Qle_lt_trans with x. }
  lia.
Qed.

Lemma below_zero (z : Z) : Js.gt (Js.Fin 0) (Js.of_int z) = true <-> z < 0.
Proof. exact (gt_of_int 0 z). Qed.

Lemma at_or_past (z n : Z) : Js.ge (Js.of_int z) (Js.of_int n) = true <-> n <= z.
Proof. unfold Js.of_int. rewrite ge_Fin, <- Zle_Qle. reflexivity. Qed.

Lemma element_of_int (arr : list Js.number) (z : Z) :
  0 <= z ->
  CursorPanel.element arr (Js.of_int z) = nth_error arr (Z.to_nat z).
Proof.
  intros Hz. unfold CursorPanel.element, Js.of_int. rewrite Qfloor_Z.
  assert (Qeq_bool (inject_Z z) (inject_Z z) = true) as ->
    by (apply Qeq_bool_iff; reflexivity).
  destruct (Z.leb_spec 0 z); [reflexivity|lia].
Qed.

Lemma pctDelta_returns (y : Js.number) (yref : Js.value) :
  exists s, CursorDeltaAddon.pctDelta y yref = Js.Return s.
Proof.
  unfold CursorDeltaAddon.pctDelta. destruct yref as [|v]; [eauto|].
  destruct (_ || _); [eauto|].
  destruct (toFixed_2_returns
              (Js.mul (Js.div (Js.sub y v) v) (Js.Fin 100))) as [s ->].
  cbn [Js.bind]. eauto.
Qed.

(** What the callback shows once the bounds test has let the index [z]
    through and both columns have an element there. *)
Lemma panel_shows (res sup : ColumnDataSource) (candles : CursorPanel.CandleSource)
    (q : Q) (z : Z) (d c : Js.number) :
  Qfloor (q + (1 # 2)) = z ->
  0 <= z < Z.of_nat (length (CursorPanel.Date candles)) ->
  nth_error (CursorPanel.Date candles) (Z.to_nat z) = Some d ->
  nth_error (CursorPanel.Close candles) (Z.to_nat z) = Some c ->
  exists fixed pctToRes pctToSup,
    Js.toFixed c 2 = Js.Return fixed /\
    CursorDeltaAddon.pctDelta c (CursorDeltaAddon.yPrevAtDate res d)
    = Js.Return pctToRes /\
    CursorDeltaAddon.pctDelta c (CursorDeltaAddon.yPrevAtDate sup d)
    = Js.Return pctToSup /\
    CursorPanel.callback res sup candles (Js.Fin q)
    = CursorPanel.Shown
        ("<b>Close: " ++ fixed
         ++ "</b> &nbsp; | &nbsp; <b>Δ vs prev RES:</b> " ++ pctToRes
         ++ " &nbsp; | &nbsp; <b>Δ vs prev SUP:</b> " ++ pctToSup)%string.
Proof.
  intros Hz Hrange Hd Hc.
  destruct (toFixed_2_returns c) as [fixed Hf].
  destruct (pctDelta_returns c (CursorDeltaAddon.yPrevAtDate res d)) as [a Ha].
  destruct (pctDelta_returns c (CursorDeltaAddon.yPrevAtDate sup d)) as [e He].
  exists fixed, a, e. split; [exact Hf|]. split; [exact Ha|]. split; [exact He|].
  unfold CursorPanel.callback. cbn [CursorPanel.Math_round]. rewrite Hz.
  assert (Js.gt (Js.Fin 0) (Js.of_int z) = false) as ->.
  { destruct (Js.gt _ _) eqn:E; [|reflexivity]. apply below_zero in E. lia. }
  assert (Js.ge (Js.of_int z)
            (Js.of_int (Z.of_nat (length (CursorPanel.Date candles)))) = false) as ->.
  { destruct (Js.ge _ _) eqn:E; [|reflexivity]. apply at_or_past in E. lia. }
  cbn [orb]. rewrite !element_of_int by lia. rewrite Hd, Hc.
  cbn [CursorPanel.to_number]. now rewrite Ha, He, Hf.
Qed.

Lemma outside_candles_placeholder_shared (res sup : ColumnDataSource)
    (candles : CursorPanel.CandleSource) :
  (forall q : Q,
      (q < - (1 # 2) \/
       inject_Z (Z.of_nat (length (CursorPanel.Date candles))) - (1 # 2) <= q)%Q ->
      CursorPanel.callback res sup candles (Js.Fin q)
      = CursorPanel.Shown CursorPanel.placeholder) /\
  CursorPanel.callback res sup candles Js.PosInf
  = CursorPanel.Shown CursorPanel.placeholder /\
  CursorPanel.callback res sup candles Js.NegInf
  = CursorPanel.Shown CursorPanel.placeholder.
Proof.
  split; [|split; reflexivity].
  intros q Hq. unfold CursorPanel.callback. cbn [CursorPanel.Math_round].
  set (z := Qfloor (q + (1 # 2))).
  destruct Hq as [Hlow|Hhigh].
  - assert (Js.gt (Js.Fin 0) (Js.of_int z) = true) as ->; [|reflexivity].
    apply below_zero. rewrite Zlt_Qlt.
    apply Qle_lt_trans with (q + (1 # 2))%Q; [apply Qfloor_le|].
    change (inject_Z 0) with 0%Q. lra.
  - assert (Js.ge (Js.of_int z)
              (Js.of_int (Z.of_nat (length (CursorPanel.Date candles)))) = true)
      as ->; [|now rewrite orb_true_r].
    apply at_or_past.
    rewrite <- (Qfloor_Z (Z.of_nat (length (CursorPanel.Date candles)))).
    apply Qfloor_resp_le. lra.
Qed.

(** X13.  Off the candles the panel shows its placeholder: a cursor left of
    -0.5 or at or right of (number of candles) - 0.5 rounds to an index out
    of range, and so does an infinite one; with no candle at all that is
    every position but [NaN]. *)
Theorem outside_candles_placeholder (res sup : ColumnDataSource)
    (candles : CursorPanel.CandleSource) :
  (forall q : Q,
      (q < - (1 # 2) \/
       inject_Z (Z.of_nat (length (CursorPanel.Date candles))) - (1 # 2) <= q)%Q ->
      CursorPanel.callback res sup candles (Js.Fin q)
      = CursorPanel.Shown CursorPanel.placeholder) /\
  CursorPanel.callback res sup candles Js.PosInf
  = CursorPanel.Shown CursorPanel.placeholder /\
  CursorPanel.callback res sup candles Js.NegInf
  = CursorPanel.Shown CursorPanel.placeholder.
Proof. exact (outside_candles_placeholder_shared res sup candles). Qed.

Lemma outside_candles_placeholder_witness :
  CursorPanel.callback empty_source empty_source
    {| CursorPanel.Date := [Js.Fin 100; Js.Fin 200];
       CursorPanel.High := []; CursorPanel.Low := [];
       CursorPanel.Close := [Js.Fin 50; Js.Fin 51] |}
    (Js.Fin (3 # 2))
  = CursorPanel.Shown CursorPanel.placeholder.
Proof.
  apply (proj1 (outside_candles_placeholder _ _ _)).
  right. vm_compute. discriminate.
Defined.

(** X14.  The panel snaps to the nearest candle, a half going to the
    right: at every cursor position in [i - 0.5, i + 0.5) it shows the
    close of candle [i] and the two deltas of that close against the lines
    that ended by the date of candle [i], not by the cursor position. *)
Theorem panel_snaps_to_candle (res sup : ColumnDataSource)
    (candles : CursorPanel.CandleSource) (i : nat) (d c : Js.number) (q : Q) :
  nth_error (CursorPanel.Date candles) i = Some d ->
  nth_error (CursorPanel.Close candles) i = Some c ->
  (inject_Z (Z.of_nat i) - (1 # 2) <= q)%Q ->
  (q < inject_Z (Z.of_nat i) + (1 # 2))%Q ->
  exists fixed pctToRes pctToSup,
    Js.toFixed c 2 = Js.Return fixed /\
    CursorDeltaAddon.pctDelta c (CursorDeltaAddon.yPrevAtDate res d)
    = Js.Return pctToRes /\
    CursorDeltaAddon.pctDelta c (CursorDeltaAddon.yPrevAtDate sup d)
    = Js.Return pctToSup /\
    CursorPanel.callback res sup candles (Js.Fin q)
    = CursorPanel.Shown
        ("<b>Close: " ++ fixed
         ++ "</b> &nbsp; | &nbsp; <b>Δ vs prev RES:</b> " ++ pctToRes
         ++ " &nbsp; | &nbsp; <b>Δ vs prev SUP:</b> " ++ pctToSup)%string.
Proof.
  intros Hd Hc Hlo Hhi.
  assert (Hi : (i < length (CursorPanel.Date candles))%nat).
  { apply nth_error_Some. congruence. }
  apply (panel_shows res sup candles q (Z.of_nat i) d c).
  - apply Qfloor_unique; [lra|]. rewrite inject_Z_plus.
    change (inject_Z 1) with 1%Q. lra.
  - lia.
  - now rewrite Nat2Z.id.
  - now rewrite Nat2Z.id.
Qed.

Lemma panel_snaps_to_candle_witness :
  exists fixed pctToRes pctToSup,
    Js.toFixed (Js.Fin 52) 2 = Js.Return fixed /\
    CursorDeltaAddon.pctDelta (Js.Fin 52)
      (CursorDeltaAddon.yPrevAtDate (columns [compiled sample_res]) (Js.Fin 105))
    = Js.Return pctToRes /\
    CursorDeltaAddon.pctDelta (Js.Fin 52)
      (CursorDeltaAddon.yPrevAtDate (columns [compiled sample_sup]) (Js.Fin 105))
    = Js.Return pctToSup /\
    CursorPanel.callback (columns [compiled sample_res])
      (columns [compiled sample_sup])
      {| CursorPanel.Date := [Js.Fin 100; Js.Fin 105];
         CursorPanel.High := []; CursorPanel.Low := [];
         CursorPanel.Close := [Js.Fin 50; Js.Fin 52] |}
      (Js.Fin (6 # 10))
    = CursorPanel.Shown
        ("<b>Close: " ++ fixed
         ++ "</b> &nbsp; | &nbsp; <b>Δ vs prev RES:</b> " ++ pctToRes
         ++ " &nbsp; | &nbsp; <b>Δ vs prev SUP:</b> " ++ pctToSup)%string.
Proof.
  apply (panel_snaps_to_candle
           (columns [compiled sample_res]) (columns [compiled sample_sup])
           {| CursorPanel.Date := [Js.Fin 100; Js.Fin 105];
              CursorPanel.High := []; CursorPanel.Low := [];
              CursorPanel.Close := [Js.Fin 50; Js.Fin 52] |}
           1 (Js.Fin 105) (Js.Fin 52) (6 # 10) eq_refl eq_refl).
  - vm_compute. discriminate.
  - vm_compute. reflexivity.
Defined.

Example panel_on_second_candle :
  CursorPanel.callback (columns [compiled sample_res])
    (columns [compiled sample_sup])
    {| CursorPanel.Date := [Js.Fin 100; Js.Fin 105];
       CursorPanel.High := []; CursorPanel.Low := [];
       CursorPanel.Close := [Js.Fin 50; Js.Fin 52] |}
    (Js.Fin (6 # 10))
  = CursorPanel.Shown
      "<b>Close: 52.00</b> &nbsp; | &nbsp; <b>Δ vs prev RES:</b> +4.00% &nbsp; | &nbsp; <b>Δ vs prev SUP:</b> +30.00%"%string.
Proof. vm_compute. reflexivity. Qed.

(** X15.  When the panel throws.  A [NaN] cursor position passes the bounds
    test, reads [undefined] from the columns and fails with a [TypeError]
    on [candleClose.toFixed]; when the Close column is as long as the Date
    column, that is the only position at which the callback throws. *)
Theorem panel_throws_only_on_nan (res sup : ColumnDataSource)
    (candles : CursorPanel.CandleSource) :
  CursorPanel.callback res sup candles Js.NaN
  = CursorPanel.Threw CursorPanel.TypeError /\
  (length (CursorPanel.Close candles) = length (CursorPanel.Date candles) ->
   forall x, x <> Js.NaN ->
             exists text, CursorPanel.callback res sup candles x
                          = CursorPanel.Shown text).
Proof.
  split.
  - unfold CursorPanel.callback.
    cbn [CursorPanel.Math_round CursorPanel.element CursorPanel.to_number].
    change (Js.gt (Js.Fin 0) Js.NaN) with false.
    change (Js.ge Js.NaN
              (Js.of_int (Z.of_nat (length (CursorPanel.Date candles)))))
      with false.
    cbn [orb].
    change (CursorDeltaAddon.yPrevAtDate res Js.NaN)
      with (BokehCursorDeltas.prevY res Js.NaN).
    change (CursorDeltaAddon.yPrevAtDate sup Js.NaN)
      with (BokehCursorDeltas.prevY sup Js.NaN).
    rewrite !prevY_never_matches by now left. reflexivity.
  - intros Hlen x Hx.
    destruct (outside_candles_placeholder_shared res sup candles) as (Hout & Hp & Hn).
    destruct x as [q| | |]; [|eauto|eauto|contradiction].
    set (z := Qfloor (q + (1 # 2))).
    destruct (Z.lt_ge_cases z 0) as [Hneg|Hpos].
    { exists CursorPanel.placeholder. apply Hout. left.
      pose proof (Qlt_floor (q + (1 # 2))) as Hc. fold z in Hc.
      assert (inject_Z (z + 1) <= 0)%Q.
      { change 0%Q with (inject_Z 0). rewrite <- Zle_Qle. lia. }
      lra. }
    destruct (Z.lt_ge_cases z (Z.of_nat (length (CursorPanel.Date candles))))
      as [Hin|Hpast].
    + destruct (nth_error (CursorPanel.Date candles) (Z.to_nat z)) as [d|] eqn:Ed;
        [|apply nth_error_None in Ed; lia].
      destruct (nth_error (CursorPanel.Close candles) (Z.to_nat z)) as [c|] eqn:Ec;
        [|apply nth_error_None in Ec; lia].
      destruct (panel_shows res sup candles q z d c eq_refl ltac:(lia) Ed Ec)
        as (f & a & e & _ & _ & _ & H).
      eauto.
    + exists CursorPanel.placeholder. apply Hout. right.
      pose proof (Qfloor_le (q + (1 # 2))) as Hf. fold z in Hf.
      assert (inject_Z (Z.of_nat (length (CursorPanel.Date candles)))
              <= inject_Z z)%Q by (rewrite <- Zle_Qle; lia).
      lra.
Qed.

Lemma panel_throws_only_on_nan_witness :
  exists text,
    CursorPanel.callback empty_source empty_source
      {| CursorPanel.Date := [Js.Fin 100]; CursorPanel.High := [];
         CursorPanel.Low := []; CursorPanel.Close := [Js.NaN] |}
      (Js.Fin (1 # 4))
    = CursorPanel.Shown text.
Proof.
  apply (proj2 (panel_throws_only_on_nan empty_source empty_source
                  {| CursorPanel.Date := [Js.Fin 100]; CursorPanel.High := [];
                     CursorPanel.Low := []; CursorPanel.Close := [Js.NaN] |})
               eq_refl).
  discriminate.
Defined.

(* ================================================================== *)
(** ** The two compilers side by side                                  *)
(* ================================================================== *)

Lemma kept_of_selected (p : string * Segment -> bool) (segs : list (string * Segment)) :
  map compiled (filter kept (map snd (filter p segs)))
  = map (fun ks => compiled (snd ks))
        (filter (fun ks => kept (snd ks) && p ks) segs).
Proof.
  induction segs as [|ks segs IH]; [reflexivity|]. cbn [filter].
  destruct (p ks); cbn [map filter].
  - destruct (kept (snd ks)); cbn [andb map]; now rewrite IH.
  - now rewrite andb_false_r.
Qed.

(** X16.  On segments with numeric anchors the two files compile alike:
    [build_sources], given the segments of kind "res" and the others,
    returns the very two sources [plot_with_prev_deltas] builds from the
    whole list. *)
Theorem compilers_agree (segs : list (string * Segment)) :
  CursorDeltaAddon.build_sources
    (map record_of (map snd (filter is_res segs)))
    (map record_of (map snd (filter (fun ks => negb (is_res ks)) segs)))
  = BokehCursorDeltas.plot_with_prev_deltas (map trendline_of segs).
Proof.
  rewrite plot_typed. unfold CursorDeltaAddon.build_sources.
  rewrite !mk_src_typed. cbn [Py.bind]. now rewrite !kept_of_selected.
Qed.

(** X17.  Where the two files part on bad input: a record whose two
    timestamps fall in the same millisecond is skipped by [_mk_src] before
    its prices are converted, so a price that is not a number does no harm
    there, while [plot_with_prev_deltas] converts the prices first and
    raises. *)
Theorem zero_span_bad_price (n0 n1 : Z) (v0 v1 : Py.value) (kind : string)
    (records : list CursorDeltaAddon.record)
    (trendlines : list BokehCursorDeltas.trendline) :
  n1 / 10 ^ 6 = n0 / 10 ^ 6 ->
  bad_value v0 || bad_value v1 = true ->
  CursorDeltaAddon._mk_src
    ((Py.Timestamp n0, v0, Py.Timestamp n1, v1) :: records)
  = CursorDeltaAddon._mk_src records /\
  BokehCursorDeltas.plot_with_prev_deltas
    ({| BokehCursorDeltas.tl_kind := kind;
        BokehCursorDeltas.tl_x0 := Py.Timestamp n0;
        BokehCursorDeltas.tl_y0 := v0;
        BokehCursorDeltas.tl_x1 := Py.Timestamp n1;
        BokehCursorDeltas.tl_y1 := v1 |} :: trendlines)
  = Py.Raise Py.FloatConversionError.
Proof.
  intros Hms Hbad. split.
  - unfold CursorDeltaAddon._mk_src. py_step.
    rewrite Hms, Z.eqb_refl. now destruct records.
  - unfold BokehCursorDeltas.plot_with_prev_deltas. py_step.
    cbn [BokehCursorDeltas.tl_x0 BokehCursorDeltas.tl_x1
         BokehCursorDeltas.tl_y0 BokehCursorDeltas.tl_y1]. py_step.
    destruct v0 as [p0|]; py_step; [|reflexivity].
    destruct v1 as [p1|]; py_step; [discriminate Hbad|reflexivity].
Qed.

Lemma zero_span_bad_price_witness :
  CursorDeltaAddon._mk_src
    [(Py.Timestamp 5, Py.NonNumeric, Py.Timestamp 7, Py.Numeric 2);
     record_of sample_sup]
  = CursorDeltaAddon._mk_src [record_of sample_sup].
Proof.
  apply (zero_span_bad_price 5 7 Py.NonNumeric (Py.Numeric 2) "sup"
           [record_of sample_sup] []); reflexivity.
Defined.

Lemma compare_refl64 (x : Binary64.number) :
  Binary64.isFinite x = true -> SFcompare x x = Some Eq.
Proof.
  destruct x as [s|s| |s m e]; try discriminate; intros _; [reflexivity|].
  cbn [SFcompare]. rewrite Z.compare_refl, Pos.compare_cont_refl.
  now destruct s.
Qed.

(** [yPrevAtDate] on a source of one line, asked at the line's own end. *)
Lemma yPrevAtDate_single (l : Binary64.line) :
  Binary64.isFinite (Binary64.of_int (Binary64.x_end l)) = true ->
  CursorDeltaAddon64.yPrevAtDate (Binary64.columns [l])
    (Binary64.of_int (Binary64.x_end l))
  = Some (project64 l (Binary64.of_int (Binary64.x_end l))).
Proof.
  intros Hfin.
  unfold CursorDeltaAddon64.yPrevAtDate, CursorDeltaAddon64.yPrevAtDate_step.
  cbn [Binary64.columns Binary64.data_x_end Binary64.col_x_end Binary64.col_m
       Binary64.col_b map length seq fold_left Binary64.index nth fst snd].
  set (x := Binary64.of_int (Binary64.x_end l)) in *.
  assert (Hge : Binary64.ge x x = true).
  { unfold Binary64.ge. now rewrite (compare_refl64 x Hfin). }
  assert (Hgt : Binary64.gt x Binary64.NegInf = true).
  { destruct x as [s|s| |s m e]; try discriminate Hfin; reflexivity. }
  rewrite Hge, Hgt. reflexivity.
Qed.



(** X22.  A price that is NaN is not rejected: [float] returns it and
    [_mk_src] compiles the record into a line whose slope, intercept and
    projection are NaN.  The line takes part in the selection like any
    other, [yPrevAtDate] returns NaN for it rather than [null], and both
    delta functions show the dash for that reference.  So a record with a
    NaN price that ends after a good line hides it: at a time where the
    level line alone gives "+0.00%", the two records together give the
    dash. *)
Theorem nan_price_compiled :
  (forall (n0 n1 : Z) (p0 p1 : Binary64.number),
      n1 / 10 ^ 6 <> n0 / 10 ^ 6 ->
      p0 = Binary64.NaN \/ p1 = Binary64.NaN ->
      exists l,
        CursorDeltaAddon64._mk_src
          [(Py.Timestamp n0, Binary64.Float p0, Py.Timestamp n1, Binary64.Float p1)]
        = Py.Ok (Binary64.columns [l]) /\
        Binary64.x_end l = Z.max (n0 / 10 ^ 6) (n1 / 10 ^ 6) /\
        Binary64.m l = Binary64.NaN /\ Binary64.b l = Binary64.NaN /\
        (forall x, project64 l x = Binary64.NaN) /\
        (Binary64.isFinite (Binary64.of_int (Binary64.x_end l)) = true ->
         CursorDeltaAddon64.yPrevAtDate (Binary64.columns [l])
           (Binary64.of_int (Binary64.x_end l))
         = Some Binary64.NaN)) /\
  (forall y,
      BokehCursorDeltas64.pct y (Some Binary64.NaN) = Js.Return em_dash /\
      CursorDeltaAddon64.pctDelta y (Some Binary64.NaN) = Js.Return em_dash) /\
  (exists alone both,
      CursorDeltaAddon64._mk_src [record64_of sample_level] = Py.Ok alone /\
      CursorDeltaAddon64._mk_src [record64_of sample_level; sample_nan]
      = Py.Ok both /\
      let t := Binary64.of_int (jan_3_2023 + 9 * day_ms) in
      let y := Binary64.decimal 17262 100 in
      CursorDeltaAddon64.pctDelta y (CursorDeltaAddon64.yPrevAtDate alone t)
      = Js.Return "+0.00%"%string /\
      CursorDeltaAddon64.yPrevAtDate both t = Some Binary64.NaN /\
      CursorDeltaAddon64.pctDelta y (CursorDeltaAddon64.yPrevAtDate both t)
      = Js.Return em_dash).
Proof.
  split; [|split].
  - intros n0 n1 p0 p1 Hne Hnan.
    eexists. split; [exact (mk_src64_single n0 n1 p0 p1 Hne)|].
    match goal with
    | |- context [ Binary64.columns [?r] ] => set (l := r)
    end.
    assert (Hm : Binary64.m l = Binary64.NaN).
    { cbn [l Binary64.m]. destruct Hnan as [-> | ->].
      - now destruct p1.
      - now destruct p0. }
    assert (Hb : Binary64.b l = Binary64.NaN).
    { change (Binary64.b l)
        with (Binary64.sub p0 (Binary64.mul (Binary64.m l)
                                 (Binary64.of_int (n0 / 10 ^ 6)))).
      rewrite Hm. now destruct p0. }
    assert (Hp : forall x, project64 l x = Binary64.NaN).
    { intros x. unfold project64. now rewrite Hm. }
    split; [reflexivity|].
    split; [exact Hm|]. split; [exact Hb|]. split; [exact Hp|].
    intros Hfin. now rewrite (yPrevAtDate_single l Hfin), Hp.
  - intros y. split; reflexivity.
  - eexists. eexists.
    split; [vm_compute; reflexivity|]. split; [vm_compute; reflexivity|].
    repeat split; vm_compute; reflexivity.
Qed.

Lemma nan_price_compiled_witness :
  exists l,
    CursorDeltaAddon64._mk_src [sample_nan] = Py.Ok (Binary64.columns [l]) /\
    CursorDeltaAddon64.yPrevAtDate (Binary64.columns [l])
      (Binary64.of_int (Binary64.x_end l))
    = Some Binary64.NaN.
Proof.
  destruct (proj1 nan_price_compiled
              (ms_ns jan_3_2023) (ms_ns (jan_3_2023 + 8 * day_ms))
              (Binary64.of_int 150) Binary64.NaN)
    as (l & Hrun & Hend & _ & _ & _ & Hy).
  - vm_compute. discriminate.
  - right. reflexivity.
  - exists l. split; [exact Hrun|]. apply Hy.
    rewrite Hend. vm_compute. reflexivity.
Defined.

(* ================================================================== *)
(** ** The up and down bars                                            *)
(* ================================================================== *)

Lemma inc_src_cons (r : Candles.row) (df : list Candles.row) :
  Candles.inc_src (r :: df)
  = if Js.ge (Candles.Close r) (Candles.Open r)
    then (Candles.Date r, Candles.Open r, Candles.Close r) :: Candles.inc_src df
    else Candles.inc_src df.
Proof. reflexivity. Qed.

Lemma dec_src_cons (r : Candles.row) (df : list Candles.row) :
  Candles.dec_src (r :: df)
  = if Js.ge (Candles.Close r) (Candles.Open r)
    then Candles.dec_src df
    else (Candles.Date r, Candles.Open r, Candles.Close r) :: Candles.dec_src df.
Proof.
  unfold Candles.dec_src, Candles.dec, Candles.inc. cbn [map Candles.loc].
  now destruct (Js.ge _ _).
Qed.

(** X19.  Every candle is drawn once: the rows of the up bars and of the
    down bars together are the rows of [df], each in one of the two, and a
    candle whose open or close is [NaN] is among the down bars. *)
Theorem every_candle_drawn_once (df : list Candles.row) :
  Permutation (Candles.inc_src df ++ Candles.dec_src df)
              (map (fun r => (Candles.Date r, Candles.Open r, Candles.Close r)) df) /\
  (length (Candles.inc_src df) + length (Candles.dec_src df) = length df)%nat /\
  (forall r, In r df ->
             Candles.Open r = Js.NaN \/ Candles.Close r = Js.NaN ->
             In (Candles.Date r, Candles.Open r, Candles.Close r)
                (Candles.dec_src df)).
Proof.
  induction df as [|r df (IHp & IHl & IHn)].
  - repeat split; [constructor|]. intros r [].
  - rewrite inc_src_cons, dec_src_cons.
    destruct (Js.ge (Candles.Close r) (Candles.Open r)) eqn:E; cbn [map length app].
    + repeat split.
      * now constructor.
      * lia.
      * intros r' [<-|Hin] Hnan; [|now apply IHn].
        exfalso. revert E. destruct Hnan as [-> | ->];
          [destruct (Candles.Close r)|destruct (Candles.Open r)]; discriminate.
    + repeat split.
      * apply Permutation_sym, Permutation_cons_app, Permutation_sym, IHp.
      * rewrite <- IHl. lia.
      * intros r' [<-|Hin] Hnan; [now left|right; now apply IHn].
Qed.

Lemma every_candle_drawn_once_witness :
  In (3, Js.NaN, Js.Fin 7)
     (Candles.dec_src
        [{| Candles.Date := 3; Candles.Open := Js.NaN; Candles.High := Js.Fin 8;
            Candles.Low := Js.Fin 6; Candles.Close := Js.Fin 7 |}]).
Proof.
  apply (proj2 (proj2 (every_candle_drawn_once
           [{| Candles.Date := 3; Candles.Open := Js.NaN; Candles.High := Js.Fin 8;
               Candles.Low := Js.Fin 6; Candles.Close := Js.Fin 7 |}]))
           {| Candles.Date := 3; Candles.Open := Js.NaN; Candles.High := Js.Fin 8;
              Candles.Low := Js.Fin 6; Candles.Close := Js.Fin 7 |}).
  - left. reflexivity.
  - left. reflexivity.
Defined.

(* ================================================================== *)
(** ** [_maybe_strip]                                                  *)
(* ================================================================== *)

Section MaybeStrip.

Variable upper : string -> string.

Lemma split_space_nonempty (c : string) : split_space c <> [].
Proof.
  destruct c as [|ch rest]; cbn [split_space]; [discriminate|].
  destruct (Ascii.eqb ch " "); [discriminate|].
  destruct (split_space rest); discriminate.
Qed.

Lemma join_cons (word : string) (words : list string) :
  words <> [] ->
  join_space (word :: words) = (word ++ " " ++ join_space words)%string.
Proof. destruct words; [contradiction|reflexivity]. Qed.

Lemma join_head (ch : ascii) (word : string) (words : list string) :
  join_space (String ch word :: words) = String ch (join_space (word :: words)).
Proof. destruct words; reflexivity. Qed.

Lemma join_split (c : string) : join_space (split_space c) = c.
Proof.
  induction c as [|ch rest IH]; [reflexivity|]. cbn [split_space].
  pose proof (split_space_nonempty rest) as Hne.
  destruct (Ascii.eqb_spec ch " ") as [->|_].
  - rewrite (join_cons _ _ Hne), IH. reflexivity.
  - destruct (split_space rest) as [|w ws]; [contradiction|].
    now rewrite join_head, IH.
Qed.

Lemma split_first_word (prefix rest : string) :
  spaceless prefix = true ->
  split_space (prefix ++ " " ++ rest) = prefix :: split_space rest.
Proof.
  induction prefix as [|ch prefix IH]; cbn [spaceless append split_space].
  - intros _. reflexivity.
  - intros H. apply andb_prop in H. destruct H as [Hch Hp].
    destruct (Ascii.eqb ch " "); [discriminate Hch|].
    change (String " " rest) with (" " ++ rest)%string.
    now rewrite (IH Hp).
Qed.

Lemma split_spaceless (c : string) : spaceless c = true -> split_space c = [c].
Proof.
  induction c as [|ch c IH]; cbn [spaceless split_space]; [reflexivity|].
  intros H. apply andb_prop in H. destruct H as [Hch Hc].
  destruct (Ascii.eqb ch " "); [discriminate Hch|]. now rewrite (IH Hc).
Qed.

(** X20.  [_maybe_strip] removes the ticker in front of a column name: for
    a first word without a space that upper-cases like the ticker,
    [first word + " " + name] becomes [name], whatever [name] is (spaces,
    or nothing at all, included). *)
Theorem maybe_strip_removes_ticker (ticker prefix name : string) :
  spaceless prefix = true ->
  upper prefix = upper ticker ->
  _maybe_strip upper ticker (prefix ++ " " ++ name) = name.
Proof.
  intros Hp Hup. unfold _maybe_strip. rewrite (split_first_word prefix name Hp).
  cbn [nth tl length]. rewrite Hup, String.eqb_refl.
  pose proof (split_space_nonempty name) as Hne.
  destruct (split_space name) as [|w ws] eqn:E; [contradiction|].
  cbn [length Nat.leb andb]. rewrite <- E. apply join_split.
Qed.

(** X21.  [_maybe_strip] leaves every other name as it is: a name without
    a space, and a name whose first word does not upper-case like the
    ticker. *)
Theorem maybe_strip_keeps_other_names (ticker : string) :
  (forall c, spaceless c = true -> _maybe_strip upper ticker c = c) /\
  (forall prefix name,
      spaceless prefix = true ->
      upper prefix <> upper ticker ->
      _maybe_strip upper ticker (prefix ++ " " ++ name)
      = (prefix ++ " " ++ name)%string).
Proof.
  split.
  - intros c Hc. unfold _maybe_strip. now rewrite (split_spaceless c Hc).
  - intros prefix name Hp Hup. unfold _maybe_strip.
    rewrite (split_first_word prefix name Hp). cbn [nth].
    apply String.eqb_neq in Hup. now rewrite Hup, andb_false_r.
Qed.

End MaybeStrip.

Lemma maybe_strip_removes_ticker_witness :
  _maybe_strip ascii_upper "aapl" "AAPL Adj Close" = "Adj Close"%string.
Proof.
  apply (maybe_strip_removes_ticker ascii_upper "aapl" "AAPL" "Adj Close");
    reflexivity.
Defined.

Lemma maybe_strip_keeps_other_names_witness :
  _maybe_strip ascii_upper "AAPL" "Adj Close" = "Adj Close"%string.
Proof.
  apply (proj2 (maybe_strip_keeps_other_names ascii_upper "AAPL")
               "Adj"%string "Close"%string).
  - reflexivity.
  - vm_compute. discriminate.
Defined.
